(** * sfusd-public: the ProPublica name reconciliation and the CALPADS
      workbook merger

    Two pipelines are covered.

    - [data/calpads/merged/data-merger.ipynb]: the notebook that loads
      two known sheets from every workbook of a directory, re-derives
      the header, keeps the San Francisco rows, projects them onto a
      school table and a CALPADS count table, and ties the second to
      the first.  The notebook is embedded operation by operation over
      a small model of the pandas frames it manipulates.
    - the ProPublica scripts ([pull_tax_data.py]): only their README is
      part of the sources, so the identity reconciler and the tax record
      merger are modelled from the specification. *)

From Stdlib Require Import Ascii String ZArith.
From stdpp Require Import gmap list.

(** ** Python strings *)

(** A Python [str] is a sequence of code points.  Equality of [str]
    values is equality of these sequences (case-sensitive). *)
Module PyStr.

Local Open Scope N_scope.

Definition pystr : Type := list N.

(** An ASCII literal as a [str]. *)
Definition py (s : string) : pystr :=
  (fun a => N_of_ascii a) <$> list_ascii_of_string s.

(** [\s] of the [re] module on a [str] pattern: the code points for
    which [str.isspace] holds. *)
Definition is_space (c : N) : bool :=
  ((9 <=? c) && (c <=? 13)) || ((28 <=? c) && (c <=? 32))
  || (c =? 133) || (c =? 160) || (c =? 5760)
  || ((8192 <=? c) && (c <=? 8202))
  || (c =? 8232) || (c =? 8233) || (c =? 8239) || (c =? 8287)
  || (c =? 12288).

Definition SPACE : N := 32.

(** [re.sub(r'\s+', ' ', s)]: the scanner walks the string left to
    right; [in_match] tells that the greedy match of [\s+] that began
    earlier is still being extended, in which case the code point is
    swallowed.  A match that begins emits the replacement once. *)
Fixpoint sub_ws_from (in_match : bool) (s : pystr) : pystr :=
  match s with
  | [] => []
  | c :: s' =>
      if is_space c
      then (if in_match then sub_ws_from true s'
            else SPACE :: sub_ws_from true s')
      else c :: sub_ws_from false s'
  end.

Definition sub_ws (s : pystr) : pystr := sub_ws_from false s.

(** The specification's wording of the same operation: cut the string
    into its maximal runs of whitespace and of non-whitespace, and
    replace every whitespace run by one space. *)
Fixpoint runs (s : pystr) : list (bool * pystr) :=
  match s with
  | [] => []
  | c :: s' =>
      match runs s' with
      | (b, r) :: rest =>
          if Bool.eqb b (is_space c) then (b, c :: r) :: rest
          else (is_space c, [c]) :: (b, r) :: rest
      | [] => [(is_space c, [c])]
      end
  end.

Definition collapse_run (br : bool * pystr) : pystr :=
  if br.1 then [SPACE] else br.2.

Definition collapse_ws_runs (s : pystr) : pystr :=
  concat (collapse_run <$> runs s).

(** Adjacent runs alternate between the two classes: this is what makes
    them maximal. *)
Fixpoint alternating (l : list (bool * pystr)) : Prop :=
  match l with
  | br :: ((br' :: _) as rest) => br.1 ≠ br'.1 ∧ alternating rest
  | _ => True
  end.

Definition homogeneous (br : bool * pystr) : Prop :=
  br.2 ≠ [] ∧ Forall (fun c => is_space c = br.1) br.2.

End PyStr.
Export PyStr.

(** ** Identity reconciler *)

Module Reconciler.

(** Modelled from the spec: the record of an override table,
    [(identifier, source-name, canonical-name)]; the scripts that read
    [ein_recodes.csv] and [extra_ptos.csv] are not among the sources. *)
Record OverrideRecord : Type := mkOverride {
  ov_identifier : pystr;
  ov_source_name : pystr;
  ov_canonical_name : pystr;
}.

(** Modelled from the spec: step 2 of [reconcile], one record of the
    recode table; [pull_tax_data.py] is missing.  The record is inserted
    only if its identifier is one of the primary identifiers. *)
Definition recode_step (P : gset pystr) (m : gmap pystr pystr)
    (r : OverrideRecord) : gmap pystr pystr :=
  if decide (ov_identifier r ∈ P)
  then <[ov_identifier r := ov_canonical_name r]> m
  else m.

(** Modelled from the spec: step 3 of [reconcile], one record of the
    override table, inserted or overwritten unconditionally;
    [pull_tax_data.py] is missing. *)
Definition override_step (m : gmap pystr pystr) (r : OverrideRecord)
    : gmap pystr pystr :=
  <[ov_identifier r := ov_canonical_name r]> m.

(** Modelled from the spec: [reconcile(primary_identifiers,
    recode_table, override_table)] of section 4.1, whose code
    ([pull_tax_data.py]) is missing: an empty mapping, then the recode
    pass, then the override pass. *)
Definition reconcile (P : gset pystr) (R O : list OverrideRecord)
    : gmap pystr pystr :=
  foldl override_step (foldl (recode_step P) ∅ R) O.

(** The name a table gives to an identifier: the one of its last record
    for that identifier (last row wins within a table). *)
Definition table_name (T : list OverrideRecord) (i : pystr) : option pystr :=
  ov_canonical_name <$> last (filter (fun r => ov_identifier r = i) T).

(** How many bindings of a mapping carry the identifier [i]. *)
Definition bindings_of (m : gmap pystr pystr) (i : pystr) : nat :=
  length (filter (fun kv => kv.1 = i) (map_to_list m)).

End Reconciler.

(** ** Tax record merger *)

Module Merger.

(** Modelled from the spec: a tax filing row, keyed by its identifier;
    the remaining fields (period, financial fields) are carried along
    untouched.  The script producing them is missing. *)
Record TaxFilingRow : Type := mkTaxRow {
  tax_ein : pystr;
  tax_fields : list (pystr * Z);
}.

(** Modelled from the spec: a row of the merged output, the filing row
    with the canonical-name field, which may be missing. *)
Record MergedRow : Type := mkMerged {
  merged_row : TaxFilingRow;
  merged_school_name : option pystr;
}.

(** Modelled from the spec: [merge(tax_rows, canonical_mapping)] of
    section 4.2, whose code ([pull_tax_data.py]) is missing.  Every row
    is looked up; a found name is attached, an absent one leaves the
    field missing. *)
Fixpoint merge (tax_rows : list TaxFilingRow) (m : gmap pystr pystr)
    : list MergedRow :=
  match tax_rows with
  | [] => []
  | row :: rest =>
      match m !! tax_ein row with
      | Some name => mkMerged row (Some name) :: merge rest m
      | None => mkMerged row None :: merge rest m
      end
  end.

End Merger.

(** ** The pandas operations the notebook uses *)

Module Pandas.

(** A cell of a sheet: empty ([NaN]), text, or a whole number (codes,
    years and counts).  Two empty cells compare equal wherever pandas
    hashes rows or keys ([drop_duplicates], [merge]). *)
Inductive cell : Type :=
  | CNull
  | CStr (s : pystr)
  | CNum (z : Z).

Global Instance cell_eq_dec : EqDecision cell.
Proof. solve_decision. Defined.

(** A frame: its column labels and its rows, each row listing the cells
    in column order.  The row index is not kept: the notebook resets or
    ignores it at every step. *)
Record frame : Type := Frame {
  columns : list pystr;
  rows : list (list cell);
}.

(** [pd.DataFrame()] *)
Definition empty_frame : frame := Frame [] [].

(** Every row has one cell per column. *)
Definition rectangular (f : frame) : Prop :=
  Forall (fun r => length r = length (columns f)) (rows f).

(** The exceptions that can end a run.  [RepeatedLabel] marks the edge
    of the embedding: on a frame that carries one label twice pandas
    hands back a sub-frame where the notebook expects a column, or
    refuses to align, and the run is not followed further. *)
Inductive exn : Type :=
  | IndexError
  | TypeError
  | KeyError
  | AttributeError
  | ValueError
  | MergeError
  | RepeatedLabel.

Inductive outcome (A : Type) : Type :=
  | Ok (a : A)
  | Raise (e : exn).
Global Arguments Ok {A} a.
Global Arguments Raise {A} e.

Global Instance outcome_ret : MRet outcome := fun A a => Ok a.
Global Instance outcome_bind : MBind outcome := fun A B k m =>
  match m with
  | Ok a => k a
  | Raise e => Raise e
  end.
Global Instance outcome_fmap : FMap outcome := fun A B g m =>
  match m with
  | Ok a => Ok (g a)
  | Raise e => Raise e
  end.

(** A loop whose body may raise. *)
Fixpoint for_each {S A : Type} (body : S -> A -> outcome S)
    (items : list A) (st : S) : outcome S :=
  match items with
  | [] => Ok st
  | x :: items' => st' ← body st x; for_each body items' st'
  end.

(** Position of the first column carrying a label. *)
Fixpoint index_of (c : pystr) (cols : list pystr) : option nat :=
  match cols with
  | [] => None
  | c' :: cols' =>
      if decide (c' = c) then Some 0%nat else S <$> index_of c cols'
  end.

(** All the positions carrying a label, counted from [j]. *)
Fixpoint positions_from (j : nat) (c : pystr) (cols : list pystr)
    : list nat :=
  match cols with
  | [] => []
  | c' :: cols' =>
      if decide (c' = c) then j :: positions_from (S j) c cols'
      else positions_from (S j) c cols'
  end.

Definition positions (c : pystr) (cols : list pystr) : list nat :=
  positions_from 0 c cols.

Definition cell_nth (r : list cell) (j : nat) : cell := default CNull (r !! j).

(** The cell of a row under a label (empty when the label is absent). *)
Definition cell_at (cols : list pystr) (r : list cell) (c : pystr) : cell :=
  match index_of c cols with
  | Some j => cell_nth r j
  | None => CNull
  end.

(** [col in frame] *)
Definition contains (f : frame) (c : pystr) : bool :=
  bool_decide (c ∈ columns f).

(** [frame[label]] and [frame.label]: the column as a list of cells;
    [missing] is the exception of the access at hand ([KeyError] for
    the subscript, [AttributeError] for the attribute). *)
Definition get_column (missing : exn) (f : frame) (c : pystr)
    : outcome (list cell) :=
  match positions c (columns f) with
  | [] => Raise missing
  | [j] => Ok ((fun r => cell_nth r j) <$> rows f)
  | _ :: _ :: _ => Raise RepeatedLabel
  end.

(** [series == text], elementwise: only a text cell with the same code
    points compares equal. *)
Definition eq_str (s : pystr) (c : cell) : bool :=
  match c with
  | CStr t => bool_decide (t = s)
  | _ => false
  end.

(** [pd.isnull], elementwise. *)
Definition isnull (c : cell) : bool :=
  match c with
  | CNull => true
  | _ => false
  end.

(** [frame[mask]]: the rows whose mask entry is true. *)
Fixpoint select_rows (rs : list (list cell)) (mask : list bool)
    : list (list cell) :=
  match rs, mask with
  | r :: rs', b :: mask' =>
      if b then r :: select_rows rs' mask' else select_rows rs' mask'
  | _, _ => []
  end.

Definition boolean_index (f : frame) (mask : list bool) : frame :=
  Frame (columns f) (select_rows (rows f) mask).

(** [frame[[labels]]]: every label must be present; a label carried by
    several columns selects all of them. *)
Definition getitem_list (f : frame) (labels : list pystr) : outcome frame :=
  if decide (Forall (fun c => c ∈ columns f) labels)
  then Ok (Frame
             (c ← labels; (fun _ => c) <$> positions c (columns f))
             ((fun r => c ← labels; cell_nth r <$> positions c (columns f))
                <$> rows f))
  else Raise KeyError.

(** A [dict] literal, in insertion order. *)
Fixpoint dict_get (d : list (pystr * pystr)) (k : pystr) : option pystr :=
  match d with
  | [] => None
  | (k', v) :: d' => if decide (k' = k) then Some v else dict_get d' k
  end.

(** [frame.rename(columns = d)] *)
Definition rename (d : list (pystr * pystr)) (f : frame) : frame :=
  Frame ((fun c => default c (dict_get d c)) <$> columns f) (rows f).

(** [frame.assign(label = value)]: a new last column, or the existing
    one overwritten. *)
Definition assign (c : pystr) (v : cell) (f : frame) : frame :=
  if decide (c ∈ columns f)
  then Frame (columns f)
         ((fun r => (fun cx => if decide (cx.1 = c) then v else cx.2)
                      <$> zip (columns f) r) <$> rows f)
  else Frame (columns f ++ [c]) ((fun r => r ++ [v]) <$> rows f).

(** Labels of an outer concatenation, in order of first appearance. *)
Definition union_labels (a b : list pystr) : list pystr :=
  a ++ filter (fun c => c ∉ a) b.

(** A row re-laid under new labels; a label it did not have is empty. *)
Definition reindex (old new : list pystr) (r : list cell) : list cell :=
  cell_at old r <$> new.

(** [pd.concat([a, b], axis = 0, ignore_index = True)].  Frames with a
    repeated label are not aligned. *)
Definition pd_concat (a b : frame) : outcome frame :=
  if decide (NoDup (columns a) ∧ NoDup (columns b))
  then
    let u := union_labels (columns a) (columns b) in
    Ok (Frame u ((reindex (columns a) u <$> rows a)
                   ++ (reindex (columns b) u <$> rows b)))
  else Raise RepeatedLabel.

(** The rows not seen before, the first of equal rows being kept. *)
Fixpoint drop_seen (seen : list (list cell)) (rs : list (list cell))
    : list (list cell) :=
  match rs with
  | [] => []
  | r :: rs' =>
      if decide (r ∈ seen) then drop_seen seen rs'
      else r :: drop_seen (r :: seen) rs'
  end.

(** [frame.drop_duplicates()]: rows are compared on all their cells.  A
    frame that pandas calls empty (no column, or no row) is returned as
    it is. *)
Definition drop_duplicates (f : frame) : frame :=
  if decide (columns f = [] ∨ rows f = []) then f
  else Frame (columns f) (drop_seen [] (rows f)).

(** [left.merge(right)]: inner join on the labels the two frames share.
    The rows come in the order pandas documents for an inner join, that
    of the left keys; the labels shared must be carried once on each
    side, which is asked here of all the labels. *)
Definition df_merge (left right : frame) : outcome frame :=
  let on := filter (fun c => c ∈ columns right) (columns left) in
  if decide (on = []) then Raise MergeError
  else if decide (NoDup (columns left) ∧ NoDup (columns right))
  then
    let extra := filter (fun c => c ∉ on) (columns right) in
    let key cols r := cell_at cols r <$> on in
    Ok (Frame (columns left ++ extra)
          (l ← rows left;
           (fun r => l ++ (cell_at (columns right) r <$> extra))
             <$> filter (fun r => key (columns right) r = key (columns left) l)
                   (rows right)))
  else Raise MergeError.

End Pandas.
Export Pandas.

(** ** The notebook [data-merger.ipynb] *)

Module Aggregator.

Definition sheet_names : list pystr :=
  [ py "LEA-Level CALPADS UPC Data";
    py "School-Level CALPADS UPC Data" ].

Definition school_data_cols : list (pystr * pystr) :=
  [ (py "School Code", py "school_code");
    (py "School Name", py "school_name");
    (py "School Type", py "school_type");
    (py "Low Grade", py "grade_low");
    (py "High Grade", py "grade_high") ].

Definition calpads_data_cols : list (pystr * pystr) :=
  [ (py "School Code", py "school_code");
    (py "Academic Year", py "academic_year");
    (py "Total Enrollment", py "enrollment");
    (py "Free & Reduced Meal Program", py "frpm_count");
    (py "Foster", py "foster_count");
    (py "Tribal Foster Youth", py "foster_tribal_count");
    (py "Homeless", py "homeless_count");
    (py "Migrant Program", py "migrant_program_count");
    (py "Direct Certification", py "direct_certification_count");
    (py "Unduplicated FRPM Eligible Count", py "frpm_eligible_count");
    (py "English Learner (EL)", py "english_learned_count");
    (py "CALPADS Unduplicated Pupil Count (UPC)", py "unduplicated_count") ].

Definition COUNTY_NAME : pystr := py "County Name".
Definition SAN_FRANCISCO : pystr := py "San Francisco".
Definition SOURCE_SHEET : pystr := py "source_sheet".
Definition GRADE_LOW : pystr := py "grade_low".
Definition SCHOOL_CODE : pystr := py "school_code".

(** A workbook on disk: its sheets by name, each as [pd.read_excel]
    returns it, that is with the first row of the sheet taken for the
    column labels and the rows beneath it as data. *)
Definition workbook : Type := list (pystr * frame).

Fixpoint read_excel (wb : workbook) (sheet_name : pystr) : outcome frame :=
  match wb with
  | [] => Raise ValueError
  | (name, f) :: wb' =>
      if decide (name = sheet_name) then Ok f else read_excel wb' sheet_name
  end.

(** [sheet.iloc[0]] *)
Definition iloc0 (f : frame) : outcome (list cell) :=
  match rows f with
  | [] => Raise IndexError
  | r :: _ => Ok r
  end.

(** [re.sub(r'\s+', ' ', colname)] on a cell: only text is accepted. *)
Definition re_sub_ws (c : cell) : outcome pystr :=
  match c with
  | CStr s => Ok (sub_ws s)
  | _ => Raise TypeError
  end.

(** The list comprehension over the cells of the header row. *)
Fixpoint colnames (r : list cell) : outcome (list pystr) :=
  match r with
  | [] => Ok []
  | c :: r' => n ← re_sub_ws c; ns ← colnames r'; Ok (n :: ns)
  end.

(** [sheet.columns = names] *)
Definition set_columns (f : frame) (names : list pystr) : outcome frame :=
  if decide (length names = length (columns f))
  then Ok (Frame names (rows f))
  else Raise ValueError.

(** [sheet[sheet[label] == text].reset_index(drop = True)] *)
Definition filter_eq (f : frame) (label text : pystr) : outcome frame :=
  col ← get_column KeyError f label;
  Ok (boolean_index f (eq_str text <$> col)).

Definition load_sheet (filename : workbook) (sheet_name : pystr)
    : outcome frame :=
  sheet ← read_excel filename sheet_name;
  header ← iloc0 sheet;
  names ← colnames header;
  sheet ← set_columns sheet names;
  filter_eq sheet COUNTY_NAME SAN_FRANCISCO.

(** [sheet[[col for col in d.keys() if col in sheet]].rename(columns = d)] *)
Definition project (d : list (pystr * pystr)) (sheet : frame)
    : outcome frame :=
  picked ← getitem_list sheet (filter (fun c => contains sheet c) d.*1);
  Ok (rename d picked).

(** The two running tables. *)
Record tables : Type := Tables {
  all_school_data : frame;
  all_calpads_data : frame;
}.

(** The body of the inner loop. *)
Definition sheet_body (filename : workbook) (st : tables)
    (sheet_name : pystr) : outcome tables :=
  sheet ← load_sheet filename sheet_name;
  school_data ← project school_data_cols sheet;
  calpads_data ← project calpads_data_cols sheet;
  schools ← drop_duplicates <$> pd_concat (all_school_data st) school_data;
  counts ← pd_concat (all_calpads_data st)
             (assign SOURCE_SHEET (CStr sheet_name) calpads_data);
  Ok (Tables schools counts).

Definition file_body (st : tables) (filename : workbook) : outcome tables :=
  for_each (sheet_body filename) sheet_names st.

(** The two loops over the directory listing. *)
Definition accumulate (directory : list workbook) : outcome tables :=
  for_each file_body directory (Tables empty_frame empty_frame).

(** The two statements after the loops. *)
Definition post_pass (st : tables) : outcome tables :=
  grade_low ← get_column AttributeError (all_school_data st) GRADE_LOW;
  let schools :=
    boolean_index (all_school_data st) ((fun c => negb (isnull c)) <$> grade_low) in
  codes ← getitem_list schools [SCHOOL_CODE];
  counts ← df_merge (all_calpads_data st) (drop_duplicates codes);
  Ok (Tables schools counts).

(** The whole cell: what is written to [sfusd-school-codes.csv] and to
    [sfusd-calpads-data.csv]. *)
Definition aggregate (directory : list workbook) : outcome tables :=
  st ← accumulate directory; post_pass st.

(** The (workbook, sheet name) pairs in the order the two loops visit
    them. *)
Definition jobs (directory : list workbook) : list (workbook * pystr) :=
  filename ← directory; (fun sheet_name => (filename, sheet_name)) <$> sheet_names.

(** The metric rows one sheet hands to the running table: its
    projection through [calpads_data_cols] with the [source_sheet]
    column assigned. *)
Definition tagged_counts (filename : workbook) (sheet_name : pystr)
    : outcome frame :=
  sheet ← load_sheet filename sheet_name;
  calpads_data ← project calpads_data_cols sheet;
  Ok (assign SOURCE_SHEET (CStr sheet_name) calpads_data).

(** The [school_code] cell of a row, and the codes a frame lists. *)
Definition code_of (f : frame) (r : list cell) : cell :=
  cell_at (columns f) r SCHOOL_CODE.

Definition school_codes (f : frame) : list cell := code_of f <$> rows f.

(** How many times a row occurs in a table. *)
Definition occurrences (r : list cell) (rs : list (list cell)) : nat :=
  length (filter (fun x => x = r) rs).

(** The inner loop body as a function of the pair it is run for. *)
Definition job_body (st : tables) (job : workbook * pystr) : outcome tables :=
  sheet_body job.1 st job.2.

(** A sheet name with the tagged frame that sheet handed over. *)
Definition contribution (job : workbook * pystr) (nf : pystr * frame)
    : Prop :=
  nf.1 = job.2 ∧ tagged_counts job.1 job.2 = Ok nf.2.

(** The handed-over rows, in order, laid under the labels of the
    running table. *)
Definition laid_out (acc : frame) (handed : list (pystr * frame))
    : list (list cell) :=
  nf ← handed; reindex (columns nf.2) (columns acc) <$> rows nf.2.

(** What the loops maintain: the school table has no repeated row as
    soon as it has a column; the count table has distinct labels and
    holds exactly the rows handed over so far, each still carrying the
    name of its sheet. *)
Definition accumulated (st : tables) (handed : list (pystr * frame))
    : Prop :=
  (columns (all_school_data st) = [] ∨ NoDup (rows (all_school_data st))) ∧
  NoDup (columns (all_calpads_data st)) ∧
  Forall (fun nf : pystr * frame =>
            columns nf.2 ⊆ columns (all_calpads_data st) ∧
            Forall (fun r => cell_at (columns nf.2) r SOURCE_SHEET = CStr nf.1)
              (rows nf.2)) handed ∧
  rows (all_calpads_data st) = laid_out (all_calpads_data st) handed.

End Aggregator.

(** ** Sample inputs *)

Module Sample.
Import Reconciler Merger Aggregator.

Definition ein_lincoln : pystr := py "11-1111111".
Definition ein_parks : pystr := py "22-2222222".
Definition ein_stray : pystr := py "33-3333333".

Definition primary : gset pystr := {[ ein_lincoln ]}.

Definition recodes : list OverrideRecord :=
  [ mkOverride ein_lincoln (py "A Pta") (py "Lincoln ES");
    mkOverride ein_stray (py "B Pta") (py "Stray ES") ].

Definition extras : list OverrideRecord :=
  [ mkOverride ein_lincoln (py "A Org") (py "Washington ES");
    mkOverride ein_parks (py "Parent Advisory Council") (py "Parks (Rosa) ES") ].

Definition filings : list TaxFilingRow :=
  [ mkTaxRow ein_lincoln [(py "tax_prd_yr", 2021%Z); (py "totrevenue", 1000%Z)];
    mkTaxRow ein_stray [(py "tax_prd_yr", 2021%Z); (py "totrevenue", 50%Z)];
    mkTaxRow ein_lincoln [(py "tax_prd_yr", 2022%Z); (py "totrevenue", 1200%Z)] ].

(** A school-level sheet as [pd.read_excel] returns it: the title line
    of the sheet became the labels, the true header is the first row. *)
Definition school_sheet : frame :=
  Frame
    [ py "Unduplicated Pupil Count"; py "Unnamed: 1"; py "Unnamed: 2";
      py "Unnamed: 3"; py "Unnamed: 4" ]
    [ [ CStr (py "County  Name"); CStr (py "School
Code"); CStr (py "School Name"); CStr (py "Low   Grade");
        CStr (py "Total Enrollment") ];
      [ CStr (py "San Francisco"); CNum 101; CStr (py "Lincoln"); CStr (py "K");
        CNum 400 ];
      [ CStr (py "san francisco"); CNum 102; CStr (py "Lower"); CStr (py "K");
        CNum 10 ];
      [ CStr (py "Alameda"); CNum 201; CStr (py "Oak"); CStr (py "K");
        CNum 300 ];
      [ CStr (py "San Francisco"); CNum 103; CStr (py "Placeholder"); CNull;
        CNum 7 ];
      [ CStr (py "San Francisco"); CNum 101; CStr (py "Lincoln"); CStr (py "K");
        CNum 400 ] ].

Definition lea_sheet : frame :=
  Frame
    [ py "Unduplicated Pupil Count"; py "Unnamed: 1" ]
    [ [ CStr (py "County Name"); CStr (py "Total Enrollment") ];
      [ CStr (py "San Francisco"); CNum 50000 ];
      [ CStr (py "Alameda"); CNum 40000 ] ].

Definition book : workbook :=
  [ (py "LEA-Level CALPADS UPC Data", lea_sheet);
    (py "School-Level CALPADS UPC Data", school_sheet) ].

Definition directory : list workbook := [ book; book ].

Definition school_level : pystr := py "School-Level CALPADS UPC Data".

(** A frame whose first row holds the region value itself under the
    region label. *)
Definition region_first : frame :=
  Frame [ py "County Name"; py "School Code" ]
    [ [ CStr (py "San Francisco"); CNum 1 ];
      [ CStr (py "Alameda"); CNum 2 ] ].

End Sample.

(** ** Shapes of header texts *)

Module Forms.

(** No two whitespace code points stand side by side. *)
Fixpoint spaced_once (s : pystr) : Prop :=
  match s with
  | c :: ((c' :: _) as s') =>
      ¬ (is_space c = true ∧ is_space c' = true) ∧ spaced_once s'
  | _ => True
  end.

(** The only whitespace code point used is the plain space. *)
Definition plain_spaces (s : pystr) : Prop :=
  Forall (fun c => is_space c = true → c = SPACE) s.

(** A text [re.sub(r'\s+', ' ', .)] has nothing left to do on. *)
Definition normal (s : pystr) : Prop := plain_spaces s ∧ spaced_once s.

(** A non-empty stretch of whitespace. *)
Definition blank (w : pystr) : Prop :=
  w ≠ [] ∧ Forall (fun c => is_space c = true) w.

(** The code points of a text that are not whitespace, in order. *)
Definition solid (s : pystr) : pystr :=
  filter (B := list N) (fun c => is_space c = false) s.

(** Whether the scanner is inside a match once it has read [a],
    having started in state [f]. *)
Definition in_match_after (f : bool) (a : pystr) : bool :=
  match last a with
  | Some c => is_space c
  | None => f
  end.

End Forms.
Export Forms.

(** ** What the loops have visited *)

Module Visits.
Import Aggregator.

Definition LOW_GRADE : pystr := py "Low Grade".
Definition SCHOOL_CODE_HEADER : pystr := py "School Code".

(** The school rows one sheet hands to the running table: the sheet as
    loaded, projected through [school_data_cols]. *)
Definition school_part (filename : workbook) (sheet_name : pystr)
    : outcome frame :=
  sheet ← load_sheet filename sheet_name; project school_data_cols sheet.

(** Some visited sheet carries the header [k] once loaded. *)
Definition seen (directory : list workbook) (k : pystr) : Prop :=
  ∃ job sheet,
    job ∈ jobs directory ∧ load_sheet job.1 job.2 = Ok sheet ∧
    k ∈ columns sheet.

(** The rows of several frames, in order, laid under given labels. *)
Definition laid_rows (cols : list pystr) (parts : list frame)
    : list (list cell) :=
  sd ← parts; reindex (columns sd) cols <$> rows sd.

(** The cells a projection through [d] picks from one row of a sheet. *)
Definition projected (d : list (pystr * pystr)) (sheet : frame)
    (r : list cell) : list cell :=
  kv ← d; cell_nth r <$> positions kv.1 (columns sheet).

(** What the loops maintain besides [accumulated]: which sheets were
    visited, what each handed over, and that the school table has
    distinct labels, namely those handed over, and holds, as a set, the
    school rows handed over. *)
Definition gathered (st : tables) (visited : list (workbook * pystr))
    (handed : list (pystr * frame)) (schools : list frame) : Prop :=
  accumulated st handed ∧
  Forall2 contribution visited handed ∧
  Forall2 (fun job sd => school_part job.1 job.2 = Ok sd) visited schools ∧
  NoDup (columns (all_school_data st)) ∧
  (∀ c, c ∈ columns (all_school_data st)
        ↔ ∃ sd, sd ∈ schools ∧ c ∈ columns sd) ∧
  (∀ c, c ∈ columns (all_calpads_data st)
        → ∃ nf, nf ∈ handed ∧ c ∈ columns nf.2) ∧
  (∀ r, r ∈ rows (all_school_data st)
        ↔ r ∈ laid_rows (columns (all_school_data st)) schools).

(** The labels a sheet's two projections come with. *)
Definition school_labels (sheet : frame) : list pystr :=
  kv ← school_data_cols; (fun _ => kv.2) <$> positions kv.1 (columns sheet).

Definition count_labels (sheet : frame) : list pystr :=
  (kv ← calpads_data_cols; (fun _ => kv.2) <$> positions kv.1 (columns sheet))
  ++ [SOURCE_SHEET].

(** The school row and the count row a loaded sheet row becomes in a
    table with the labels of [target]. *)
Definition school_row_of (target sheet : frame) (r : list cell) : list cell :=
  reindex (school_labels sheet) (columns target)
    (projected school_data_cols sheet r).

Definition count_row_of (target sheet : frame) (sheet_name : pystr)
    (r : list cell) : list cell :=
  reindex (count_labels sheet) (columns target)
    (projected calpads_data_cols sheet r ++ [CStr sheet_name]).

(** The exceptions the two loops can end with. *)
Definition loop_exn (e : exn) : Prop :=
  e = ValueError ∨ e = IndexError ∨ e = TypeError ∨ e = KeyError
  ∨ e = RepeatedLabel.

End Visits.
Export Visits.

(** ** More sample inputs *)

Module Cases.
Import Aggregator.

Definition lea_level : pystr := py "LEA-Level CALPADS UPC Data".

(** A workbook without the LEA-level sheet. *)
Definition bare_book : workbook :=
  [ (Sample.school_level, Sample.school_sheet) ].

(** A sheet with a header line and nothing under it. *)
Definition empty_sheet : frame := Frame [ py "County Name" ] [].

Definition empty_book : workbook := [ (lea_level, empty_sheet) ].

(** A sheet whose true header has an empty cell. *)
Definition holed_sheet : frame :=
  Frame [ py "Title"; py "Unnamed: 1" ]
    [ [ CStr (py "County Name"); CNull ];
      [ CStr (py "San Francisco"); CNum 1 ] ].

Definition holed_book : workbook := [ (lea_level, holed_sheet) ].

(** A sheet whose region header ends with a blank. *)
Definition trailing_sheet : frame :=
  Frame [ py "Title"; py "Unnamed: 1" ]
    [ [ CStr (py "County Name "); CStr (py "School Code") ];
      [ CStr (py "San Francisco"); CNum 1 ] ].

Definition trailing_book : workbook := [ (lea_level, trailing_sheet) ].

(** A loaded sheet with two mapped headers among others. *)
Definition loaded_sheet : frame :=
  Frame [ py "County Name"; py "Low Grade"; py "Charter"; py "School Code" ]
    [ [ CStr (py "San Francisco"); CStr (py "K"); CStr (py "No"); CNum 101 ];
      [ CStr (py "San Francisco"); CNull; CStr (py "Yes"); CNum 102 ] ].

(** The first San Francisco row of the sample school-level sheet. *)
Definition lincoln_row : list cell :=
  [ CStr (py "San Francisco"); CNum 101; CStr (py "Lincoln"); CStr (py "K");
    CNum 400 ].

Definition school_job : workbook * pystr :=
  (Sample.book, Sample.school_level).

End Cases.

(** * Properties *)

(** ** Lists *)

Module ListFacts.

Lemma filter_is_nil {A : Type} (P : A → Prop) `{!∀ x, Decision (P x)}
    (l : list A) :
  (∀ x, x ∈ l → ¬ P x) → filter P l = [].
Proof.
  induction l as [|a l IH]; intros Hall; [done|].
  rewrite filter_cons_False by (apply Hall; left).
  apply IH. intros x Hx. apply Hall. by right.
Qed.

End ListFacts.
Import ListFacts.

(** ** Whitespace normalisation *)

Module PyStrFacts.

Lemma runs_concat (s : pystr) : concat ((fun br => br.2) <$> runs s) = s.
Proof.
  induction s as [|c s IH]; [done|].
  simpl. destruct (runs s) as [|[b r] rest]; simpl in *.
  - by rewrite <- IH.
  - destruct (Bool.eqb b (is_space c)); simpl; by rewrite <- IH.
Qed.

Lemma runs_homogeneous (s : pystr) : Forall homogeneous (runs s).
Proof.
  induction s as [|c s IH]; [constructor|].
  simpl. destruct (runs s) as [|[b r] rest].
  - repeat constructor; done.
  - destruct (Bool.eqb b (is_space c)) eqn:E.
    + apply Bool.eqb_prop in E. inversion IH as [|? ? [Hne Hall] Hrest]; subst.
      constructor; [|done]. split; [done|]. simpl in *. by constructor.
    + constructor; [|done]. repeat constructor; done.
Qed.

Lemma runs_alternating (s : pystr) : alternating (runs s).
Proof.
  induction s as [|c s IH]; [done|].
  simpl. destruct (runs s) as [|[b r] rest] eqn:Hr; [done|].
  destruct (Bool.eqb b (is_space c)) eqn:E.
  - destruct rest; [done|]. exact IH.
  - split; [|exact IH]. simpl. intros Heq. subst b.
    by rewrite Bool.eqb_reflx in E.
Qed.

(** The scanner against the run decomposition: from outside a match it
    yields the collapsed runs; from inside a match it has already
    emitted the space of the run it is in. *)
Lemma sub_ws_from_runs (s : pystr) :
  sub_ws_from false s = collapse_ws_runs s ∧
  sub_ws_from true s =
    match runs s with
    | (true, _) :: rest => concat (collapse_run <$> rest)
    | _ => collapse_ws_runs s
    end.
Proof.
  unfold collapse_ws_runs.
  induction s as [|c s [IH1 IH2]]; [done|].
  simpl. destruct (is_space c) eqn:Hc.
  - destruct (runs s) as [|[[] r] rest]; simpl in *;
      rewrite ?IH2; split; reflexivity.
  - destruct (runs s) as [|[[] r] rest]; simpl in *;
      rewrite ?IH1; split; reflexivity.
Qed.

Lemma sub_ws_collapse (s : pystr) : sub_ws s = collapse_ws_runs s.
Proof. apply sub_ws_from_runs. Qed.

End PyStrFacts.

(** ** Identity reconciler *)

Module ReconcilerFacts.
Import Reconciler.

Lemma table_name_snoc (T : list OverrideRecord) (r : OverrideRecord)
    (i : pystr) :
  table_name (T ++ [r]) i =
    if decide (ov_identifier r = i) then Some (ov_canonical_name r)
    else table_name T i.
Proof.
  unfold table_name. rewrite filter_app, filter_cons, filter_nil.
  destruct (decide (ov_identifier r = i)) as [Heq|Hne].
  - by rewrite last_snoc.
  - by rewrite app_nil_r.
Qed.

Lemma table_name_is_Some (T : list OverrideRecord) (i : pystr) :
  i ∈ ov_identifier <$> T → is_Some (table_name T i).
Proof.
  intros (r & -> & Hr)%list_elem_of_fmap.
  unfold table_name.
  assert (Hin : r ∈ filter (fun r' => ov_identifier r' = ov_identifier r) T)
    by (by apply list_elem_of_filter).
  destruct (filter _ T) as [|x l] using rev_ind.
  - by apply elem_of_nil in Hin.
  - rewrite last_snoc. by eexists.
Qed.

Lemma table_name_None (T : list OverrideRecord) (i : pystr) :
  i ∉ ov_identifier <$> T → table_name T i = None.
Proof.
  intros Hni. destruct (table_name T i) as [n|] eqn:E; [|done].
  exfalso. apply Hni. unfold table_name in E.
  apply fmap_Some in E as (r & Hl & _).
  apply last_Some in Hl as [l' Hl].
  assert (Hin : r ∈ filter (fun r' => ov_identifier r' = i) T).
  { rewrite Hl. apply elem_of_app. right. by apply list_elem_of_singleton. }
  apply list_elem_of_filter in Hin as [<- Hin].
  by apply list_elem_of_fmap_2.
Qed.

Lemma table_name_agree (T : list OverrideRecord) (i n n' : pystr) :
  table_name T i = Some n →
  (∀ r, r ∈ T → ov_identifier r = i → ov_canonical_name r = n') →
  n = n'.
Proof.
  unfold table_name. intros (r & Hl & ->)%fmap_Some Hall.
  apply last_Some in Hl as [l' Hl].
  assert (Hin : r ∈ filter (fun r' => ov_identifier r' = i) T).
  { rewrite Hl. apply elem_of_app. right. by apply list_elem_of_singleton. }
  apply list_elem_of_filter in Hin as [Hi Hin]. by apply Hall.
Qed.

(** The override pass: the last record of the table for an identifier
    decides; identifiers the table does not name keep their binding. *)
Lemma override_pass_lookup (O : list OverrideRecord)
    (m : gmap pystr pystr) (i : pystr) :
  foldl override_step m O !! i =
    match table_name O i with
    | Some n => Some n
    | None => m !! i
    end.
Proof.
  induction O as [|r O IH] using rev_ind.
  - done.
  - rewrite foldl_app, table_name_snoc. simpl. unfold override_step at 1.
    destruct (decide (ov_identifier r = i)) as [<-|Hne].
    + by rewrite lookup_insert_eq.
    + by rewrite lookup_insert_ne.
Qed.

(** The recode pass leaves identifiers outside the primary set alone. *)
Lemma recode_pass_outside (P : gset pystr) (R : list OverrideRecord)
    (m : gmap pystr pystr) (i : pystr) :
  i ∉ P → foldl (recode_step P) m R !! i = m !! i.
Proof.
  intros Hi. revert m. induction R as [|r R IH]; intros m; [done|].
  simpl. rewrite IH. unfold recode_step.
  destruct (decide (ov_identifier r ∈ P)) as [Hin|]; [|done].
  apply lookup_insert_ne. congruence.
Qed.

Lemma bindings_of_key {A : Type} (l : list (pystr * A)) (i : pystr) (n : A) :
  NoDup l.*1 → (i, n) ∈ l →
  length (filter (fun kv : pystr * A => kv.1 = i) l) = 1%nat.
Proof.
  induction l as [|[k v] l IH]; intros Hnd Hin.
  - by apply elem_of_nil in Hin.
  - rewrite fmap_cons in Hnd. apply NoDup_cons in Hnd as [Hk Hnd].
    apply elem_of_cons in Hin as [Heq|Hin].
    + inversion Heq; subst. rewrite filter_cons_True by done. simpl. f_equal.
      apply length_zero_iff_nil, filter_is_nil.
      intros [k' v'] Hin' Heq'. simpl in *. subst.
      apply Hk. by apply (list_elem_of_fmap_2 fst) in Hin'.
    + rewrite filter_cons_False; [by apply IH|].
      simpl. intros ->. apply Hk. by apply (list_elem_of_fmap_2 fst) in Hin.
Qed.

Lemma bindings_of_bound (m : gmap pystr pystr) (i n : pystr) :
  m !! i = Some n → bindings_of m i = 1%nat.
Proof.
  intros Hm. unfold bindings_of.
  apply (bindings_of_key _ _ n).
  - apply NoDup_fst_map_to_list.
  - by apply elem_of_map_to_list.
Qed.

End ReconcilerFacts.

(** ** Frames *)

Module PandasFacts.

Lemma bind_Ok {A B : Type} (m : outcome A) (k : A → outcome B) (b : B) :
  m ≫= k = Ok b → ∃ a, m = Ok a ∧ k a = Ok b.
Proof. destruct m as [a|e]; [by exists a|done]. Qed.

Lemma Ok_inj {A : Type} (a b : A) : Ok a = Ok b → a = b.
Proof. by intros [= ->]. Qed.

Lemma fmap_Ok {A B : Type} (m : outcome A) (g : A → B) (b : B) :
  g <$> m = Ok b → ∃ a, m = Ok a ∧ b = g a.
Proof.
  destruct m as [a|e]; [|done]. intros [= <-]. by exists a.
Qed.

Lemma eq_str_true (s : pystr) (c : cell) : eq_str s c = true ↔ c = CStr s.
Proof.
  destruct c as [|t|z]; simpl; [done| |done].
  rewrite bool_decide_eq_true. split; congruence.
Qed.

Lemma isnull_false (c : cell) : negb (isnull c) = true ↔ c ≠ CNull.
Proof. by destruct c. Qed.

Lemma select_rows_fmap (g : list cell → bool) (rs : list (list cell)) :
  select_rows rs (g <$> rs) = filter (fun r => g r = true) rs.
Proof.
  induction rs as [|r rs IH]; [done|].
  rewrite fmap_cons, filter_cons. cbn [select_rows]. rewrite IH.
  destruct (g r); by case_decide.
Qed.

Lemma positions_from_shift (j : nat) (c : pystr) (cols : list pystr) :
  positions_from (S j) c cols = S <$> positions_from j c cols.
Proof.
  revert j. induction cols as [|c' cols IH]; intros j; [done|].
  simpl. rewrite IH. by case_decide.
Qed.

Lemma positions_cons (c c' : pystr) (cols : list pystr) :
  positions c (c' :: cols) =
    if decide (c' = c) then 0%nat :: (S <$> positions c cols)
    else S <$> positions c cols.
Proof.
  unfold positions. simpl. by rewrite positions_from_shift.
Qed.

Lemma index_of_head (c : pystr) (cols : list pystr) :
  index_of c cols = head (positions c cols).
Proof.
  induction cols as [|c' cols IH]; [done|].
  rewrite positions_cons. simpl. case_decide; [done|].
  rewrite IH. by destruct (positions c cols).
Qed.

Lemma positions_lookup (c : pystr) (cols : list pystr) (j : nat) :
  j ∈ positions c cols ↔ cols !! j = Some c.
Proof.
  revert j. induction cols as [|c' cols IH]; intros j.
  - split; [by intros ?%elem_of_nil|done].
  - rewrite positions_cons. destruct j as [|j]; simpl.
    + case_decide as Hc; subst.
      * split; [done|left].
      * split; [|congruence].
        by intros (? & ? & _)%list_elem_of_fmap.
    + rewrite <- IH. case_decide.
      * rewrite elem_of_cons, list_elem_of_fmap. split.
        -- intros [?|(y & [= ->] & ?)]; done.
        -- intros ?. right. by eexists.
      * rewrite list_elem_of_fmap. split.
        -- intros (y & [= ->] & ?); done.
        -- intros ?. by eexists.
Qed.

Lemma positions_nil (c : pystr) (cols : list pystr) :
  positions c cols = [] ↔ c ∉ cols.
Proof.
  split.
  - intros Hp (j & Hj)%list_elem_of_lookup.
    apply positions_lookup in Hj. rewrite Hp in Hj. by apply elem_of_nil in Hj.
  - intros Hc. destruct (positions c cols) as [|j l] eqn:E; [done|].
    exfalso. apply Hc. apply list_elem_of_lookup. exists j.
    apply positions_lookup. rewrite E. left.
Qed.

Lemma positions_NoDup (c : pystr) (cols : list pystr) :
  NoDup cols → c ∈ cols → ∃ j, positions c cols = [j].
Proof.
  induction cols as [|c' cols IH]; intros Hnd Hin.
  - by apply elem_of_nil in Hin.
  - apply NoDup_cons in Hnd as [Hc' Hnd]. rewrite positions_cons.
    case_decide as Hc; subst.
    + exists 0%nat. apply positions_nil in Hc'. by rewrite Hc'.
    + apply elem_of_cons in Hin as [?|Hin]; [congruence|].
      destruct (IH Hnd Hin) as [j ->]. by exists (S j).
Qed.

Lemma index_of_None (c : pystr) (cols : list pystr) :
  index_of c cols = None ↔ c ∉ cols.
Proof.
  rewrite index_of_head, <- positions_nil.
  by destruct (positions c cols).
Qed.

Lemma index_of_Some (c : pystr) (cols : list pystr) (j : nat) :
  index_of c cols = Some j → cols !! j = Some c.
Proof.
  rewrite index_of_head. intros Hh. apply positions_lookup.
  destruct (positions c cols) as [|j' l]; [done|].
  injection Hh as ->. left.
Qed.

Lemma index_of_is_Some (c : pystr) (cols : list pystr) :
  c ∈ cols → is_Some (index_of c cols).
Proof.
  intros Hin. destruct (index_of c cols) eqn:E; [done|].
  by apply index_of_None in E.
Qed.

Lemma cell_at_position (cols : list pystr) (r : list cell) (c : pystr)
    (j : nat) :
  positions c cols = [j] → cell_at cols r c = cell_nth r j.
Proof.
  intros Hp. unfold cell_at. by rewrite index_of_head, Hp.
Qed.

Lemma cell_at_absent (cols : list pystr) (r : list cell) (c : pystr) :
  c ∉ cols → cell_at cols r c = CNull.
Proof.
  intros Hc. unfold cell_at. apply index_of_None in Hc. by rewrite Hc.
Qed.

End PandasFacts.

(** ** Loading a sheet *)

Module LoadSheetFacts.
Import Aggregator PandasFacts.

Lemma colnames_Ok (r : list cell) (names : list pystr) :
  colnames r = Ok names →
  ∃ texts, r = CStr <$> texts ∧ names = sub_ws <$> texts.
Proof.
  revert names. induction r as [|c r IH]; intros names H.
  - injection H as <-. by exists [].
  - simpl in H. apply bind_Ok in H as (n & Hn & H).
    apply bind_Ok in H as (ns & Hns & H). injection H as <-.
    destruct c as [|t|z]; try done. injection Hn as <-.
    destruct (IH _ Hns) as (texts & -> & ->). by exists (t :: texts).
Qed.

(** What a successful [load_sheet] did, statement by statement. *)
Lemma load_sheet_inv (wb : workbook) (name : pystr) (df : frame) :
  load_sheet wb name = Ok df →
  ∃ raw hdr rest texts j,
    read_excel wb name = Ok raw ∧
    rows raw = hdr :: rest ∧
    hdr = CStr <$> texts ∧
    columns df = sub_ws <$> texts ∧
    positions COUNTY_NAME (columns df) = [j] ∧
    rows df = filter (fun r => cell_nth r j = CStr SAN_FRANCISCO) (rows raw).
Proof.
  unfold load_sheet. intros H.
  apply bind_Ok in H as (raw & Hraw & H).
  apply bind_Ok in H as (hdr & Hhdr & H).
  apply bind_Ok in H as (names & Hnames & H).
  apply bind_Ok in H as (sheet & Hsheet & H).
  unfold iloc0 in Hhdr. destruct (rows raw) as [|hdr' rest] eqn:Hrows; [done|].
  injection Hhdr as ->.
  apply colnames_Ok in Hnames as (texts & -> & ->).
  unfold set_columns in Hsheet. case_decide; [|done]. injection Hsheet as <-.
  unfold filter_eq in H. apply bind_Ok in H as (col & Hcol & H).
  injection H as <-. unfold get_column in Hcol. simpl in *.
  destruct (positions COUNTY_NAME (sub_ws <$> texts)) as [|j [|]] eqn:Hp;
    try done.
  injection Hcol as <-.
  exists raw, (CStr <$> texts), rest, texts, j.
  repeat split; try done.
  rewrite <- list_fmap_compose.
  rewrite (select_rows_fmap (eq_str SAN_FRANCISCO ∘ (fun r => cell_nth r j))).
  apply list_filter_iff. intros r. simpl. apply eq_str_true.
Qed.

Lemma colnames_texts (texts : list pystr) :
  colnames (CStr <$> texts) = Ok (sub_ws <$> texts).
Proof.
  induction texts as [|t texts IH]; [done|].
  rewrite !fmap_cons. cbn [colnames re_sub_ws]. by rewrite IH.
Qed.

(** When [load_sheet] returns: the sheet is in the workbook, its first
    row holds texts only, and one of them normalises to the region
    label. *)
Lemma load_sheet_returns (wb : workbook) (name : pystr) (raw : frame)
    (texts : list pystr) (rest : list (list cell)) (j : nat) :
  read_excel wb name = Ok raw →
  rows raw = (CStr <$> texts) :: rest →
  length texts = length (columns raw) →
  positions COUNTY_NAME (sub_ws <$> texts) = [j] →
  load_sheet wb name =
    Ok (Frame (sub_ws <$> texts)
          (filter (fun r => cell_nth r j = CStr SAN_FRANCISCO) (rows raw))).
Proof.
  intros Hraw Hrows Hlen Hp. unfold load_sheet. rewrite Hraw.
  cbn [mbind outcome_bind]. unfold iloc0. rewrite Hrows.
  cbn [mbind outcome_bind]. rewrite colnames_texts.
  cbn [mbind outcome_bind]. unfold set_columns.
  rewrite decide_True by (by rewrite length_fmap).
  cbn [mbind outcome_bind]. unfold filter_eq, get_column.
  cbn [columns rows]. rewrite Hp. cbn [mbind outcome_bind].
  unfold boolean_index. cbn [columns rows]. do 2 f_equal.
  rewrite <- Hrows, <- list_fmap_compose.
  rewrite (select_rows_fmap (eq_str SAN_FRANCISCO ∘ (fun r => cell_nth r j))).
  apply list_filter_iff. intros r. simpl. apply eq_str_true.
Qed.

Lemma header_cell (texts : list pystr) (j : nat) :
  (sub_ws <$> texts) !! j = Some COUNTY_NAME →
  ∃ t, cell_nth (CStr <$> texts) j = CStr t ∧ sub_ws t = COUNTY_NAME.
Proof.
  rewrite list_lookup_fmap. intros (t & Ht & Hs)%fmap_Some.
  exists t. split; [|done].
  unfold cell_nth. by rewrite list_lookup_fmap, Ht.
Qed.

Lemma sub_ws_san_francisco : sub_ws SAN_FRANCISCO ≠ COUNTY_NAME.
Proof. vm_compute. discriminate. Qed.

End LoadSheetFacts.

(** ** Projection through a column map *)

Module ProjectFacts.
Import Aggregator PandasFacts.

Lemma dict_get_entry (d : list (pystr * pystr)) (k v : pystr) :
  NoDup d.*1 → (k, v) ∈ d → dict_get d k = Some v.
Proof.
  induction d as [|[k' v'] d IH]; intros Hnd Hin.
  - by apply elem_of_nil in Hin.
  - rewrite fmap_cons in Hnd. apply NoDup_cons in Hnd as [Hk Hnd].
    simpl. apply elem_of_cons in Hin as [[= -> ->]|Hin].
    + by rewrite decide_True.
    + rewrite decide_False; [by apply IH|].
      intros ->. apply Hk. by apply (list_elem_of_fmap_2 fst) in Hin.
Qed.

(** Keys that the sheet lacks select nothing, so leaving them out of
    the subscript changes nothing. *)
Lemma bind_present {B : Type} (f : frame) (g : pystr → list nat → list B)
    (keys : list pystr) :
  (∀ c, g c [] = []) →
  (c ← filter (fun c => contains f c) keys; g c (positions c (columns f)))
  = (c ← keys; g c (positions c (columns f))).
Proof.
  intros Hg. induction keys as [|k keys IH]; [done|].
  rewrite filter_cons, !bind_cons. unfold contains at 1.
  case_decide as Hk.
  - rewrite bind_cons. by rewrite IH.
  - rewrite IH. rewrite bool_decide_spec in Hk.
    apply positions_nil in Hk. by rewrite Hk, Hg.
Qed.

Lemma bind_keys {B : Type} (d : list (pystr * pystr))
    (g : pystr → list B) :
  (c ← d.*1; g c) = (kv ← d; g kv.1).
Proof.
  induction d as [|kv d IH]; [done|].
  by rewrite fmap_cons, !bind_cons, IH.
Qed.

Lemma rename_bind (d0 d : list (pystr * pystr)) (cols : list pystr) :
  (∀ kv, kv ∈ d → dict_get d0 kv.1 = Some kv.2) →
  (fun c => default c (dict_get d0 c))
    <$> (kv ← d; (fun _ => kv.1) <$> positions kv.1 cols)
  = (kv ← d; (fun _ => kv.2) <$> positions kv.1 cols).
Proof.
  induction d as [|kv d IH]; intros Hd; [done|].
  rewrite !bind_cons, fmap_app, IH by (intros ? ?; apply Hd; by right).
  f_equal. rewrite <- list_fmap_compose. apply list_fmap_ext.
  intros ? ? _. simpl. by rewrite Hd by left.
Qed.

(** The closed form of a projection. *)
Lemma project_Ok (d : list (pystr * pystr)) (sheet : frame) :
  NoDup d.*1 →
  project d sheet =
    Ok (Frame
          (kv ← d; (fun _ => kv.2) <$> positions kv.1 (columns sheet))
          ((fun r => kv ← d; cell_nth r <$> positions kv.1 (columns sheet))
             <$> rows sheet)).
Proof.
  intros Hnd. unfold project, getitem_list.
  rewrite decide_True.
  2:{ apply Forall_forall. intros c [Hc _]%list_elem_of_filter.
      unfold contains in Hc. by apply bool_decide_unpack in Hc. }
  simpl. unfold rename. simpl. do 2 f_equal.
  - rewrite (bind_present sheet (fun c ps => (fun _ => c) <$> ps)) by done.
    rewrite (bind_keys d (fun c => (fun _ => c) <$> positions c (columns sheet))).
    apply rename_bind. intros [k v] Hin. by apply dict_get_entry.
  - apply list_fmap_ext. intros _ r _.
    rewrite (bind_present sheet (fun c ps => cell_nth r <$> ps)) by done.
    by rewrite (bind_keys d (fun c => cell_nth r <$> positions c (columns sheet))).
Qed.

Lemma project_columns_elem (d : list (pystr * pystr)) (cols : list pystr)
    (c : pystr) :
  c ∈ (kv ← d; (fun _ => kv.2) <$> positions kv.1 cols)
  ↔ ∃ k, (k, c) ∈ d ∧ k ∈ cols.
Proof.
  rewrite list_elem_of_bind. split.
  - intros ([k v] & Hc & Hin). simpl in *.
    apply list_elem_of_fmap in Hc as (j & -> & Hj).
    exists k. split; [done|].
    apply positions_lookup in Hj. by eapply list_elem_of_lookup_2.
  - intros (k & Hin & Hk). exists (k, c). split; [|done]. simpl.
    destruct (positions k cols) as [|j l] eqn:E.
    + by apply positions_nil in E.
    + left.
Qed.

Lemma project_rectangular (d : list (pystr * pystr)) (cols : list pystr)
    (r : list cell) :
  length (kv ← d; cell_nth r <$> positions kv.1 cols)
  = length (kv ← d; (fun _ => kv.2) <$> positions kv.1 cols).
Proof.
  induction d as [|kv d IH]; [done|].
  by rewrite !bind_cons, !length_app, !length_fmap, IH.
Qed.

End ProjectFacts.

(** ** Concatenation, duplicates and the join *)

Module TableFacts.
Import Aggregator PandasFacts.

Lemma drop_seen_spec (seen rs : list (list cell)) :
  NoDup (drop_seen seen rs) ∧
  ∀ r, r ∈ drop_seen seen rs ↔ r ∈ rs ∧ r ∉ seen.
Proof.
  revert seen. induction rs as [|x rs IH]; intros seen.
  - split; [constructor|]. intros r. split; [by intros ?%elem_of_nil|].
    by intros [?%elem_of_nil _].
  - simpl. case_decide as Hx.
    + destruct (IH seen) as [Hnd Hel]. split; [done|].
      intros r. rewrite Hel, elem_of_cons. split; [tauto|].
      intros [[-> |?] ?]; [done|tauto].
    + destruct (IH (x :: seen)) as [Hnd Hel]. split.
      * apply NoDup_cons. split; [|done].
        rewrite Hel, elem_of_cons. tauto.
      * intros r. rewrite !elem_of_cons, Hel, elem_of_cons.
        destruct (decide (r = x)) as [-> |]; tauto.
Qed.

Lemma drop_duplicates_columns (f : frame) :
  columns (drop_duplicates f) = columns f.
Proof. unfold drop_duplicates. by case_decide. Qed.

Lemma drop_duplicates_elem (f : frame) (r : list cell) :
  r ∈ rows (drop_duplicates f) ↔ r ∈ rows f.
Proof.
  unfold drop_duplicates. case_decide; [done|]. simpl.
  destruct (drop_seen_spec [] (rows f)) as [_ ->].
  split; [tauto|]. intros ?. split; [done|]. by intros ?%elem_of_nil.
Qed.

Lemma drop_duplicates_NoDup (f : frame) :
  columns f ≠ [] → NoDup (rows (drop_duplicates f)).
Proof.
  intros Hc. unfold drop_duplicates. case_decide as H.
  - destruct H as [?| ->]; [done|constructor].
  - apply drop_seen_spec.
Qed.

Lemma union_labels_NoDup (a b : list pystr) :
  NoDup a → NoDup b → NoDup (union_labels a b).
Proof.
  intros Ha Hb. apply NoDup_app. split; [done|]. split.
  - intros c Hc [Hn _]%list_elem_of_filter. done.
  - by apply NoDup_filter.
Qed.

Lemma union_labels_l (a b : list pystr) : a ⊆ union_labels a b.
Proof. intros c Hc. apply elem_of_app. by left. Qed.

Lemma union_labels_r (a b : list pystr) : b ⊆ union_labels a b.
Proof.
  intros c Hc. apply elem_of_app.
  destruct (decide (c ∈ a)); [by left|right].
  by apply list_elem_of_filter.
Qed.

(** Re-laying a row keeps the cell under every label it had. *)
Lemma cell_at_reindex (old new : list pystr) (r : list cell) (c : pystr) :
  c ∈ new ∨ c ∉ old →
  cell_at new (reindex old new r) c = cell_at old r c.
Proof.
  intros Hc. unfold cell_at at 1.
  destruct (index_of c new) as [j|] eqn:E.
  - apply index_of_Some in E. unfold cell_nth, reindex.
    by rewrite list_lookup_fmap, E.
  - apply index_of_None in E. destruct Hc as [?|Hc]; [done|].
    by rewrite cell_at_absent.
Qed.

Lemma reindex_reindex (old mid new : list pystr) (r : list cell) :
  old ⊆ mid →
  reindex mid new (reindex old mid r) = reindex old new r.
Proof.
  intros Hsub. unfold reindex at 1 3. apply list_fmap_ext. intros _ c _.
  apply cell_at_reindex.
  destruct (decide (c ∈ mid)); [by left|right]. intros ?. by apply n, Hsub.
Qed.

Lemma pd_concat_inv (a b f : frame) :
  pd_concat a b = Ok f →
  NoDup (columns a) ∧ NoDup (columns b) ∧
  columns f = union_labels (columns a) (columns b) ∧
  rows f = (reindex (columns a) (columns f) <$> rows a)
             ++ (reindex (columns b) (columns f) <$> rows b).
Proof.
  unfold pd_concat. case_decide as H; [|done]. intros [= <-].
  destruct H. done.
Qed.

(** [assign] of a label the frame lacks: every row ends with the
    value. *)
Lemma assign_fresh (c : pystr) (v : cell) (f : frame) :
  c ∉ columns f → rectangular f →
  columns (assign c v f) = columns f ++ [c] ∧
  Forall (fun r => cell_at (columns (assign c v f)) r c = v)
    (rows (assign c v f)).
Proof.
  intros Hc Hrect. unfold assign. rewrite decide_False by done. simpl.
  split; [done|]. apply Forall_fmap, Forall_forall. intros r Hr. simpl.
  unfold rectangular in Hrect. rewrite Forall_forall in Hrect.
  specialize (Hrect r Hr). unfold cell_at.
  assert (Hi : index_of c (columns f ++ [c]) = Some (length (columns f))).
  { clear -Hc. induction (columns f) as [|c' cols IH]; simpl.
    - by rewrite decide_True.
    - apply not_elem_of_cons in Hc as [Hne Hc].
      rewrite decide_False by done. by rewrite IH. }
  rewrite Hi. unfold cell_nth. rewrite <- Hrect.
  by rewrite lookup_app_r, Nat.sub_diag.
Qed.

Lemma filter_singleton_label (c : pystr) (cols : list pystr) :
  NoDup cols →
  filter (fun x => x ∈ [c]) cols = if decide (c ∈ cols) then [c] else [].
Proof.
  induction cols as [|x cols IH]; intros Hnd; [done|].
  apply NoDup_cons in Hnd as [Hx Hnd]. rewrite filter_cons, (IH Hnd).
  destruct (decide (x ∈ [c])) as [H1|H1].
  - apply list_elem_of_singleton in H1 as ->.
    rewrite decide_False by done. rewrite decide_True; [done|left].
  - destruct (decide (c ∈ cols)) as [H2|H2].
    + rewrite decide_True; [done|by right].
    + rewrite decide_False; [done|].
      intros [-> |?]%elem_of_cons; [|done]. apply H1. left.
Qed.

Lemma filter_unique {A : Type} `{!EqDecision A} (P : A → Prop)
    `{!∀ x, Decision (P x)} (l : list A) (x : A) :
  NoDup l → (∀ y, y ∈ l → P y ↔ y = x) →
  filter P l = if decide (x ∈ l) then [x] else [].
Proof.
  induction l as [|a l IH]; intros Hnd HP; [done|].
  apply NoDup_cons in Hnd as [Ha Hnd].
  assert (HP' : ∀ y, y ∈ l → P y ↔ y = x) by (intros; apply HP; by right).
  rewrite filter_cons, (IH Hnd HP').
  destruct (decide (P a)) as [H1|H1].
  - apply HP in H1 as ->; [|left].
    rewrite decide_False by done. rewrite decide_True; [done|left].
  - assert (a ≠ x) by (intros ->; apply H1, HP; [left|done]).
    destruct (decide (x ∈ l)) as [H2|H2].
    + rewrite decide_True; [done|by right].
    + rewrite decide_False; [done|]. by intros [-> |?]%elem_of_cons.
Qed.

Lemma bind_if_filter {A : Type} (P : A → Prop) `{!∀ x, Decision (P x)}
    (l : list A) :
  (x ← l; if decide (P x) then [x] else []) = filter P l.
Proof.
  induction l as [|a l IH]; [done|].
  rewrite bind_cons, filter_cons, IH. by case_decide.
Qed.

Lemma NoDup_const {A B : Type} (x : B) (l : list A) :
  NoDup ((fun _ => x) <$> l) → length l ≤ 1.
Proof.
  destruct l as [|a [|b l]]; simpl; [lia|lia|].
  intros [Hn _]%NoDup_cons. exfalso. apply Hn. left.
Qed.

End TableFacts.

(** ** The statements after the loops *)

Module PostPassFacts.
Import Aggregator PandasFacts TableFacts.

Lemma df_merge_NoDup (left right out : frame) :
  df_merge left right = Ok out →
  NoDup (columns left) ∧ NoDup (columns right).
Proof.
  unfold df_merge.
  destruct (decide (filter _ (columns left) = [])); [done|].
  destruct (decide (NoDup (columns left) ∧ NoDup (columns right))) as [H|];
    [|done].
  by destruct H.
Qed.

(** [frame[['school_code']]] on a frame that carries the label once. *)
Lemma getitem_code_inv (f codes : frame) :
  getitem_list f [SCHOOL_CODE] = Ok codes →
  NoDup (columns codes) →
  ∃ j, positions SCHOOL_CODE (columns f) = [j] ∧
       codes = Frame [SCHOOL_CODE] ((fun r => [cell_nth r j]) <$> rows f).
Proof.
  unfold getitem_list. case_decide as Hall; [|done]. intros [= <-].
  cbn [columns]. rewrite app_nil_r. intros Hnd%NoDup_const.
  rewrite Forall_singleton in Hall.
  destruct (positions SCHOOL_CODE (columns f)) as [|j [|j' ps]] eqn:Hp.
  - exfalso. by apply (proj1 (positions_nil _ _) Hp).
  - exists j. split; [done|]. reflexivity.
  - simpl in Hnd. lia.
Qed.

(** The join against a one-column frame without repeated rows keeps,
    in order and once each, the left rows whose key it lists. *)
Lemma df_merge_single (left right out : frame) (c : pystr) :
  columns right = [c] →
  NoDup (rows right) →
  (∀ r, r ∈ rows right → ∃ v, r = [v]) →
  df_merge left right = Ok out →
  columns out = columns left ∧
  rows out = filter (fun l => [cell_at (columns left) l c] ∈ rows right)
               (rows left).
Proof.
  intros Hright Hnd Hshape. unfold df_merge. rewrite Hright.
  destruct (decide (filter (fun c0 => c0 ∈ [c]) (columns left) = []))
    as [|Hon]; [done|].
  destruct (decide (NoDup (columns left) ∧ NoDup [c])) as [Hcols|]; [|done].
  destruct Hcols as [Hl _].
  rewrite (filter_singleton_label c _ Hl) in Hon |- *.
  destruct (decide (c ∈ columns left)) as [Hc|]; [|done].
  intros [= <-]. simpl.
  assert (Hextra : filter (fun c0 : pystr => c0 ∉ [c]) [c] = []).
  { rewrite filter_cons, decide_False; [done|]. intros H. apply H. left. }
  rewrite Hextra. split; [by rewrite app_nil_r|].
  rewrite <- (bind_if_filter
    (fun l => [cell_at (columns left) l c] ∈ rows right)).
  apply list_bind_ext; [|done]. intros l.
  rewrite (filter_unique _ _ [cell_at (columns left) l c] Hnd).
  - case_decide; simpl; [|done]. by rewrite app_nil_r.
  - intros r (v & ->)%Hshape. unfold cell_at. simpl.
    rewrite decide_True by done. unfold cell_nth. simpl. done.
Qed.

Lemma post_pass_inv (st out : tables) :
  post_pass st = Ok out →
  (∃ j, positions GRADE_LOW (columns (all_school_data st)) = [j]) ∧
  columns (all_school_data out) = columns (all_school_data st) ∧
  rows (all_school_data out) =
    filter (fun r => cell_at (columns (all_school_data st)) r GRADE_LOW ≠ CNull)
      (rows (all_school_data st)) ∧
  columns (all_calpads_data out) = columns (all_calpads_data st) ∧
  rows (all_calpads_data out) =
    filter (fun l => code_of (all_calpads_data st) l
                       ∈ school_codes (all_school_data out))
      (rows (all_calpads_data st)).
Proof.
  unfold post_pass. intros H.
  apply bind_Ok in H as (grade_low & Hg & H).
  apply bind_Ok in H as (codes & Hcodes & H).
  apply bind_Ok in H as (counts & Hcounts & H). injection H as <-.
  unfold get_column in Hg.
  destruct (positions GRADE_LOW (columns (all_school_data st)))
    as [|j [|]] eqn:Hp; try done.
  injection Hg as <-.
  set (schools := boolean_index _ _) in *.
  assert (Hschools : schools = Frame (columns (all_school_data st))
            (filter (fun r => cell_at (columns (all_school_data st)) r GRADE_LOW ≠ CNull)
               (rows (all_school_data st)))).
  { unfold schools, boolean_index. f_equal.
    rewrite <- list_fmap_compose.
    rewrite (select_rows_fmap
      ((fun c => negb (isnull c)) ∘ (fun r => cell_nth r j))).
    apply list_filter_iff. intros r. simpl.
    rewrite isnull_false. by rewrite (cell_at_position _ _ _ _ Hp). }
  clearbody schools. subst schools. cbn [all_school_data all_calpads_data columns rows].
  split; [by exists j|].
  destruct (df_merge_NoDup _ _ _ Hcounts) as [_ Hnd].
  rewrite drop_duplicates_columns in Hnd.
  destruct (getitem_code_inv _ _ Hcodes Hnd) as (k & Hk & ->).
  cbn [columns rows] in Hk.
  apply (df_merge_single _ _ _ SCHOOL_CODE) in Hcounts as [Hc Hr].
  - repeat split; try done.
    rewrite Hr. apply list_filter_iff. intros l.
    rewrite drop_duplicates_elem. cbn [rows columns].
    unfold school_codes, code_of. cbn [rows columns].
    rewrite !list_elem_of_fmap.
    split.
    + intros (e & [= ->] & He). exists e. split; [|done].
      by rewrite (cell_at_position _ _ _ _ Hk).
    + intros (e & -> & He). exists e. split; [|done].
      by rewrite (cell_at_position _ _ _ _ Hk).
  - by rewrite drop_duplicates_columns.
  - by apply drop_duplicates_NoDup.
  - intros r Hr. rewrite drop_duplicates_elem in Hr. simpl in Hr.
    apply list_elem_of_fmap in Hr as (e & -> & _). by eexists.
Qed.

End PostPassFacts.

(** ** The two loops *)

Module AccumulateFacts.
Import Aggregator PandasFacts TableFacts ProjectFacts.

Lemma for_each_app {S A : Type} (body : S → A → outcome S)
    (l1 l2 : list A) (st : S) :
  for_each body (l1 ++ l2) st = for_each body l1 st ≫= for_each body l2.
Proof.
  revert st. induction l1 as [|x l1 IH]; intros st; [done|].
  simpl. destruct (body st x) as [st'|e]; [|done]. simpl. apply IH.
Qed.

Lemma for_each_fmap {S A B : Type} (body : S → A → outcome S)
    (g : B → A) (l : list B) (st : S) :
  for_each body (g <$> l) st = for_each (fun s x => body s (g x)) l st.
Proof.
  revert st. induction l as [|x l IH]; intros st; [done|].
  rewrite fmap_cons. simpl. destruct (body st (g x)) as [st'|e]; [|done].
  simpl. apply IH.
Qed.

(** The nested loops visit the pairs of [jobs] in order. *)
Lemma accumulate_jobs (directory : list workbook) (st : tables) :
  for_each file_body directory st = for_each job_body (jobs directory) st.
Proof.
  unfold jobs. revert st.
  induction directory as [|wb directory IH]; intros st; [done|].
  rewrite bind_cons, for_each_app, for_each_fmap.
  change (for_each file_body (wb :: directory) st)
    with (for_each (sheet_body wb) sheet_names st
            ≫= for_each file_body directory).
  change (fun s x => job_body s (wb, x)) with (sheet_body wb).
  destruct (for_each (sheet_body wb) sheet_names st) as [st'|e]; [|done].
  apply IH.
Qed.

Lemma fmap_bind {A B C : Type} (g : B → C) (f : A → list B) (l : list A) :
  g <$> (l ≫= f) = l ≫= (fun x => g <$> f x).
Proof.
  induction l as [|x l IH]; [done|].
  by rewrite !bind_cons, fmap_app, IH.
Qed.

Lemma calpads_keys_NoDup : NoDup calpads_data_cols.*1.
Proof. apply (bool_decide_unpack _). vm_compute. exact I. Qed.

Lemma school_keys_NoDup : NoDup school_data_cols.*1.
Proof. apply (bool_decide_unpack _). vm_compute. exact I. Qed.

Lemma source_sheet_fresh : SOURCE_SHEET ∉ calpads_data_cols.*2.
Proof. apply (bool_decide_unpack _). vm_compute. exact I. Qed.

(** The tagged frame of a sheet: one more label, [source_sheet], and
    the sheet name in that cell of every row. *)
Lemma tagged_counts_tag (wb : workbook) (name : pystr) (B : frame) :
  tagged_counts wb name = Ok B →
  Forall (fun r => cell_at (columns B) r SOURCE_SHEET = CStr name) (rows B).
Proof.
  unfold tagged_counts. intros H.
  apply bind_Ok in H as (sheet & _ & H).
  apply bind_Ok in H as (calpads & Hp & H). injection H as <-.
  rewrite (project_Ok _ _ calpads_keys_NoDup) in Hp.
  apply Ok_inj in Hp. subst calpads.
  apply assign_fresh.
  - cbn [columns]. intros (k & Hin & _)%project_columns_elem.
    apply source_sheet_fresh. by apply (list_elem_of_fmap_2 snd) in Hin.
  - unfold rectangular. cbn [columns rows]. apply Forall_fmap, Forall_forall.
    intros r _. apply project_rectangular.
Qed.

Lemma sheet_body_step (wb : workbook) (name : pystr) (st st' : tables)
    (handed : list (pystr * frame)) :
  sheet_body wb st name = Ok st' →
  accumulated st handed →
  ∃ B, tagged_counts wb name = Ok B ∧ accumulated st' (handed ++ [(name, B)]).
Proof.
  unfold sheet_body. intros H (Hs & Hc & Hh & Hrows).
  apply bind_Ok in H as (sheet & Hsheet & H).
  apply bind_Ok in H as (school & Hschool & H).
  apply bind_Ok in H as (calpads & Hcalpads & H).
  apply bind_Ok in H as (schools & Hschools & H).
  apply bind_Ok in H as (counts & Hcounts & H). injection H as <-.
  apply fmap_Ok in Hschools as (X & HX & ->).
  set (B := assign SOURCE_SHEET (CStr name) calpads) in *.
  assert (HB : tagged_counts wb name = Ok B).
  { unfold tagged_counts. rewrite Hsheet. simpl. by rewrite Hcalpads. }
  exists B. split; [done|].
  apply pd_concat_inv in Hcounts as (_ & HBnd & Hcols & Hr).
  unfold accumulated. cbn [all_school_data all_calpads_data].
  split; [|split; [|split]].
  - destruct (decide (columns X = [])) as [HX0|HX0].
    + left. by rewrite drop_duplicates_columns.
    + right. by apply drop_duplicates_NoDup.
  - rewrite Hcols. by apply union_labels_NoDup.
  - apply Forall_app. split.
    + eapply Forall_impl; [exact Hh|]. intros nf [Hsub Htag].
      split; [|done]. rewrite Hcols. intros c Hc0.
      by apply union_labels_l, Hsub.
    + apply Forall_singleton. split.
      * rewrite Hcols. apply union_labels_r.
      * by apply (tagged_counts_tag wb).
  - rewrite Hr. unfold laid_out. rewrite bind_app, bind_singleton.
    f_equal. rewrite Hrows. unfold laid_out. rewrite fmap_bind.
    apply Forall_bind_ext. eapply Forall_impl; [exact Hh|].
    intros nf [Hsub _]. simpl. rewrite <- list_fmap_compose.
    apply list_fmap_ext. intros _ r _. simpl.
    by apply reindex_reindex.
Qed.

Lemma jobs_accumulated (js : list (workbook * pystr)) (st st' : tables)
    (handed : list (pystr * frame)) :
  for_each job_body js st = Ok st' →
  accumulated st handed →
  ∃ more, Forall2 contribution js more ∧ accumulated st' (handed ++ more).
Proof.
  revert st handed. induction js as [|[wb name] js IH]; intros st handed H Hacc.
  - injection H as <-. exists []. split; [constructor|].
    by rewrite app_nil_r.
  - simpl in H. apply bind_Ok in H as (st1 & H1 & H).
    destruct (sheet_body_step _ _ _ _ _ H1 Hacc) as (B & HB & Hacc1).
    destruct (IH _ _ H Hacc1) as (more & Hmore & Hacc').
    exists ((name, B) :: more). split.
    + constructor; [done|done].
    + by rewrite <- app_assoc in Hacc'.
Qed.

Lemma accumulate_accumulated (directory : list workbook) (st : tables) :
  accumulate directory = Ok st →
  ∃ handed, Forall2 contribution (jobs directory) handed ∧
            accumulated st handed.
Proof.
  unfold accumulate. rewrite accumulate_jobs. intros H.
  apply (jobs_accumulated _ _ _ []) in H; [done|].
  unfold accumulated. simpl.
  split; [by left|]. split; [constructor|]. split; [constructor|done].
Qed.

Lemma aggregate_inv (directory : list workbook) (out : tables) :
  aggregate directory = Ok out →
  ∃ acc, accumulate directory = Ok acc ∧ post_pass acc = Ok out.
Proof. unfold aggregate. apply bind_Ok. Qed.

Lemma occurrences_filter (P : list cell → Prop) `{!∀ r, Decision (P r)}
    (r : list cell) (rs : list (list cell)) :
  P r → occurrences r (filter P rs) = occurrences r rs.
Proof.
  intros Hr. unfold occurrences. induction rs as [|x rs IH]; [done|].
  rewrite (filter_cons P). destruct (decide (P x)) as [Hx|Hx].
  - rewrite !(filter_cons (fun y => y = r)).
    destruct (decide (x = r)); simpl; by rewrite IH.
  - rewrite IH, (filter_cons (fun y => y = r)).
    rewrite decide_False; [done|]. by intros ->.
Qed.

End AccumulateFacts.

(** * The claims *)

Module Claims.
Import Reconciler ReconcilerFacts Aggregator PandasFacts PyStrFacts.
Import LoadSheetFacts ProjectFacts TableFacts PostPassFacts AccumulateFacts.

(** C1 — For every primary set [P], recode table [R] and override table
    [O], the mapping [reconcile P R O] binds every identifier of [O],
    exactly once, to the name [O] gives it (the name of the last record
    of [O] for that identifier; the only name when the records of [O]
    for it agree), whether or not the identifier also occurs in [R] or
    in [P]. *)
Theorem reconcile_override_wins (P : gset pystr) (R O : list OverrideRecord)
    (i : pystr) :
  i ∈ ov_identifier <$> O →
  ∃ n,
    reconcile P R O !! i = Some n ∧
    bindings_of (reconcile P R O) i = 1%nat ∧
    table_name O i = Some n ∧
    (∃ r, r ∈ O ∧ ov_identifier r = i ∧ ov_canonical_name r = n) ∧
    (∀ n', (∀ r, r ∈ O → ov_identifier r = i → ov_canonical_name r = n') →
           n = n').
Proof.
  intros Hi. destruct (table_name_is_Some O i Hi) as [n Hn].
  assert (Hl : reconcile P R O !! i = Some n).
  { unfold reconcile. by rewrite override_pass_lookup, Hn. }
  exists n. split; [done|]. split; [by eapply bindings_of_bound|].
  split; [done|]. split.
  - pose proof Hn as Hn'. unfold table_name in Hn'.
    apply fmap_Some in Hn' as (r & Hlast & ->).
    apply last_Some in Hlast as [l' Hlast].
    assert (Hin : r ∈ filter (fun r' => ov_identifier r' = i) O).
    { rewrite Hlast. apply elem_of_app. right. by apply list_elem_of_singleton. }
    apply list_elem_of_filter in Hin as [? ?]. by exists r.
  - intros n' Hall. by eapply table_name_agree.
Qed.

Lemma reconcile_override_wins_witness :
  ∃ n,
    reconcile Sample.primary Sample.recodes Sample.extras !! Sample.ein_lincoln
      = Some n ∧
    bindings_of (reconcile Sample.primary Sample.recodes Sample.extras)
      Sample.ein_lincoln = 1%nat ∧
    table_name Sample.extras Sample.ein_lincoln = Some n ∧
    (∃ r, r ∈ Sample.extras ∧ ov_identifier r = Sample.ein_lincoln
          ∧ ov_canonical_name r = n) ∧
    (∀ n', (∀ r, r ∈ Sample.extras → ov_identifier r = Sample.ein_lincoln →
                 ov_canonical_name r = n') → n = n').
Proof.
  apply (reconcile_override_wins Sample.primary Sample.recodes Sample.extras
           Sample.ein_lincoln).
  apply (bool_decide_unpack _). vm_compute. exact I.
Defined.

(** C3 — An identifier that occurs in the recode table [R] but not in
    the primary set [P] is absent from [reconcile P R O], unless it also
    occurs in the override table [O]. *)
Theorem reconcile_ignores_unsearched (P : gset pystr)
    (R O : list OverrideRecord) (i : pystr) :
  i ∈ ov_identifier <$> R →
  i ∉ P →
  i ∉ ov_identifier <$> O →
  reconcile P R O !! i = None.
Proof.
  intros _ HP HO. unfold reconcile.
  rewrite override_pass_lookup, (table_name_None O i HO).
  by rewrite recode_pass_outside.
Qed.

Lemma reconcile_ignores_unsearched_witness :
  reconcile Sample.primary Sample.recodes Sample.extras !! Sample.ein_stray
    = None.
Proof.
  apply reconcile_ignores_unsearched.
  - apply (bool_decide_unpack _). vm_compute. exact I.
  - apply (bool_decide_unpack _). vm_compute. exact I.
  - apply (bool_decide_unpack _). vm_compute. exact I.
Defined.

(** C2 — For every sequence of tax filing rows and every canonical
    mapping, [merge] returns as many rows as it was given, row for row
    in the same order; a row whose identifier the mapping lacks is kept
    with its name field missing, a row whose identifier it has carries
    that name. *)
Theorem merge_keeps_every_row (tax_rows : list Merger.TaxFilingRow)
    (m : gmap pystr pystr) :
  length (Merger.merge tax_rows m) = length tax_rows ∧
  (∀ k row, tax_rows !! k = Some row → m !! Merger.tax_ein row = None →
            Merger.merge tax_rows m !! k = Some (Merger.mkMerged row None)) ∧
  (∀ k row name, tax_rows !! k = Some row →
            m !! Merger.tax_ein row = Some name →
            Merger.merge tax_rows m !! k
              = Some (Merger.mkMerged row (Some name))).
Proof.
  induction tax_rows as [|r rest (IHlen & IHnone & IHsome)].
  - repeat split; intros; done.
  - split; [|split].
    + simpl. destruct (m !! Merger.tax_ein r); simpl; by rewrite IHlen.
    + intros [|k] row Hk Hm; simpl in *.
      * injection Hk as ->. by rewrite Hm.
      * destruct (m !! Merger.tax_ein r); simpl; by apply IHnone.
    + intros [|k] row name Hk Hm; simpl in *.
      * injection Hk as ->. by rewrite Hm.
      * destruct (m !! Merger.tax_ein r); simpl; by apply IHsome.
Qed.

Lemma merge_keeps_every_row_witness :
  length (Merger.merge Sample.filings
            (reconcile Sample.primary Sample.recodes Sample.extras))
    = 3%nat ∧
  Merger.merge Sample.filings
    (reconcile Sample.primary Sample.recodes Sample.extras) !! 1%nat
    = Some (Merger.mkMerged
              (Merger.mkTaxRow Sample.ein_stray
                 [(py "tax_prd_yr", 2021%Z); (py "totrevenue", 50%Z)])
              None).
Proof.
  pose proof (merge_keeps_every_row Sample.filings
    (reconcile Sample.primary Sample.recodes Sample.extras))
    as (Hlen & Hnone & _).
  split; [exact Hlen|].
  apply Hnone; [reflexivity|]. vm_compute. reflexivity.
Defined.



(** C7 — [load_sheet] takes the column names from the first data row
    beneath the row pandas read as the header: that row holds texts,
    and the labels of the result are these texts with every maximal run
    of whitespace replaced by one space. *)
Theorem load_sheet_header_normalized (filename : workbook)
    (sheet_name : pystr) (df : frame) :
  load_sheet filename sheet_name = Ok df →
  ∃ raw texts rest,
    read_excel filename sheet_name = Ok raw ∧
    rows raw = (CStr <$> texts) :: rest ∧
    columns df = collapse_ws_runs <$> texts ∧
    Forall (fun t => concat ((fun br => br.2) <$> runs t) = t
                     ∧ Forall homogeneous (runs t)
                     ∧ alternating (runs t)) texts.
Proof.
  intros H.
  destruct (load_sheet_inv _ _ _ H)
    as (raw & hdr & rest & texts & j & Hraw & Hrows & -> & Hcols & _ & _).
  exists raw, texts, rest. split; [done|]. split; [done|]. split.
  - rewrite Hcols. apply list_fmap_ext. intros _ t _. apply sub_ws_collapse.
  - apply Forall_forall. intros t _.
    split; [apply runs_concat|].
    split; [apply runs_homogeneous|apply runs_alternating].
Qed.

Lemma load_sheet_header_normalized_witness :
  ∃ df,
    load_sheet Sample.book Sample.school_level = Ok df ∧
    columns df = [ py "County Name"; py "School Code"; py "School Name";
                   py "Low Grade"; py "Total Enrollment" ] ∧
    ∃ raw texts rest,
      read_excel Sample.book Sample.school_level = Ok raw ∧
      rows raw = (CStr <$> texts) :: rest ∧
      columns df = collapse_ws_runs <$> texts ∧
      Forall (fun t => concat ((fun br => br.2) <$> runs t) = t
                       ∧ Forall homogeneous (runs t)
                       ∧ alternating (runs t)) texts.
Proof.
  eexists. split; [vm_compute; reflexivity|]. split; [reflexivity|].
  apply (load_sheet_header_normalized Sample.book Sample.school_level).
  vm_compute. reflexivity.
Defined.



(** C8 — Projecting a sheet through a column map never raises, whatever
    columns the sheet has: the result holds, in the order of the map,
    the columns of the sheet that a key of the map names, under the
    canonical name of that key; a key the sheet lacks contributes
    nothing; no row is lost. *)
Theorem project_never_raises (d : list (pystr * pystr)) (sheet : frame) :
  NoDup d.*1 →
  ∃ f,
    project d sheet = Ok f ∧
    columns f = (kv ← d; (fun _ => kv.2) <$> positions kv.1 (columns sheet)) ∧
    rows f = ((fun r => kv ← d; cell_nth r <$> positions kv.1 (columns sheet))
                <$> rows sheet) ∧
    (∀ c, c ∈ columns f ↔ ∃ k, (k, c) ∈ d ∧ k ∈ columns sheet) ∧
    (∀ k, k ∉ columns sheet → positions k (columns sheet) = []) ∧
    length (rows f) = length (rows sheet).
Proof.
  intros Hnd. eexists. split; [by apply project_Ok|]. cbn [columns rows].
  split; [done|]. split; [done|]. split; [|split].
  - intros c. apply project_columns_elem.
  - intros k. apply positions_nil.
  - by rewrite length_fmap.
Qed.

Lemma project_never_raises_witness :
  ∃ f,
    project school_data_cols Sample.region_first = Ok f ∧
    columns f = [ py "school_code" ] ∧
    rows f = [ [CNum 1]; [CNum 2] ].
Proof.
  destruct (project_never_raises school_data_cols Sample.region_first)
    as (f & Hf & Hcols & Hrows & _).
  - apply (bool_decide_unpack _). vm_compute. exact I.
  - exists f. split; [exact Hf|]. split.
    + rewrite Hcols. vm_compute. reflexivity.
    + rewrite Hrows. vm_compute. reflexivity.
Defined.

(** C5 — The school table the notebook writes has no two equal rows,
    and none of its rows has an empty [grade_low] cell. *)
Theorem school_table_distinct_and_graded (directory : list workbook)
    (out : tables) :
  aggregate directory = Ok out →
  NoDup (rows (all_school_data out)) ∧
  ∀ r, r ∈ rows (all_school_data out) →
       cell_at (columns (all_school_data out)) r GRADE_LOW ≠ CNull.
Proof.
  intros (acc & Hacc & Hpost)%aggregate_inv.
  destruct (accumulate_accumulated _ _ Hacc) as (handed & _ & Hs & _).
  destruct (post_pass_inv _ _ Hpost) as ([j Hj] & Hcols & Hrows & _).
  rewrite Hrows, Hcols. split.
  - apply NoDup_filter. destruct Hs as [Hnil|Hnd]; [|done].
    rewrite Hnil in Hj. done.
  - by intros r [? _]%list_elem_of_filter.
Qed.

Lemma school_table_distinct_and_graded_witness :
  ∃ out,
    aggregate Sample.directory = Ok out ∧
    rows (all_school_data out) = [ [CNum 101; CStr (py "Lincoln"); CStr (py "K")] ] ∧
    NoDup (rows (all_school_data out)) ∧
    ∀ r, r ∈ rows (all_school_data out) →
         cell_at (columns (all_school_data out)) r GRADE_LOW ≠ CNull.
Proof.
  eexists. split; [vm_compute; reflexivity|]. split; [reflexivity|].
  apply (school_table_distinct_and_graded Sample.directory).
  vm_compute. reflexivity.
Defined.

(** C4 — Every school code found in the count table the notebook writes
    is a school code of the school table it writes.  The rows of the
    written count table are rows of the accumulated one, unchanged, and
    an accumulated row whose code is not in the written school table is
    not among them. *)
Theorem count_codes_in_school_table (directory : list workbook)
    (out : tables) :
  aggregate directory = Ok out →
  (∀ r, r ∈ rows (all_calpads_data out) →
        code_of (all_calpads_data out) r ∈ school_codes (all_school_data out)) ∧
  ∃ acc,
    accumulate directory = Ok acc ∧
    columns (all_calpads_data out) = columns (all_calpads_data acc) ∧
    (∀ r, r ∈ rows (all_calpads_data out) → r ∈ rows (all_calpads_data acc)) ∧
    (∀ r, r ∈ rows (all_calpads_data acc) →
          code_of (all_calpads_data acc) r ∉ school_codes (all_school_data out) →
          r ∉ rows (all_calpads_data out)).
Proof.
  intros (acc & Hacc & Hpost)%aggregate_inv.
  destruct (post_pass_inv _ _ Hpost) as (_ & _ & _ & Hcols & Hrows).
  split.
  - intros r Hr. rewrite Hrows in Hr.
    apply list_elem_of_filter in Hr as [Hr _].
    unfold code_of in *. by rewrite Hcols.
  - exists acc. split; [done|]. split; [done|]. rewrite Hrows. split.
    + by intros r [_ ?]%list_elem_of_filter.
    + intros r _ Hno [? _]%list_elem_of_filter. done.
Qed.

Lemma count_codes_in_school_table_witness :
  ∃ out,
    aggregate Sample.directory = Ok out ∧
    length (rows (all_calpads_data out)) = 4%nat ∧
    (∀ r, r ∈ rows (all_calpads_data out) →
          code_of (all_calpads_data out) r
            ∈ school_codes (all_school_data out)) ∧
    ∃ acc,
      accumulate Sample.directory = Ok acc ∧
      columns (all_calpads_data out) = columns (all_calpads_data acc) ∧
      (∀ r, r ∈ rows (all_calpads_data out) → r ∈ rows (all_calpads_data acc)) ∧
      (∀ r, r ∈ rows (all_calpads_data acc) →
            code_of (all_calpads_data acc) r
              ∉ school_codes (all_school_data out) →
            r ∉ rows (all_calpads_data out)).
Proof.
  eexists. split; [vm_compute; reflexivity|]. split; [reflexivity|].
  apply (count_codes_in_school_table Sample.directory).
  vm_compute. reflexivity.
Defined.

(** C9 — The count rows are never deduplicated.  The accumulated count
    table holds, in order, exactly the rows every visited sheet handed
    over, each carrying the name of its sheet under [source_sheet]; the
    written count table keeps the labels and is the accumulated one
    restricted to the rows whose code is in the written school table,
    so that such a row occurs in it as many times as it was
    accumulated. *)
Theorem count_rows_never_deduplicated (directory : list workbook)
    (out : tables) :
  aggregate directory = Ok out →
  ∃ acc handed,
    accumulate directory = Ok acc ∧
    Forall2 contribution (jobs directory) handed ∧
    rows (all_calpads_data acc) = laid_out (all_calpads_data acc) handed ∧
    (∀ nf r, nf ∈ handed → r ∈ rows nf.2 →
       cell_at (columns (all_calpads_data acc))
         (reindex (columns nf.2) (columns (all_calpads_data acc)) r)
         SOURCE_SHEET = CStr nf.1) ∧
    columns (all_calpads_data out) = columns (all_calpads_data acc) ∧
    rows (all_calpads_data out) ≡ₚ
      filter (fun r => code_of (all_calpads_data acc) r
                         ∈ school_codes (all_school_data out))
        (rows (all_calpads_data acc)) ∧
    (∀ r, code_of (all_calpads_data acc) r
            ∈ school_codes (all_school_data out) →
          occurrences r (rows (all_calpads_data out))
            = occurrences r (rows (all_calpads_data acc))).
Proof.
  intros (acc & Hacc & Hpost)%aggregate_inv.
  destruct (accumulate_accumulated _ _ Hacc)
    as (handed & Hhanded & _ & _ & Htags & Hlaid).
  destruct (post_pass_inv _ _ Hpost) as (_ & _ & _ & Hcols & Hrows).
  exists acc, handed. repeat split; try done.
  2:{ by rewrite Hrows. }
  - intros nf r Hnf Hr. rewrite Forall_forall in Htags.
    destruct (Htags nf Hnf) as [Hsub Htag].
    rewrite Forall_forall in Htag. rewrite cell_at_reindex; [by apply Htag|].
    destruct (decide (SOURCE_SHEET ∈ columns nf.2)); [left|by right].
    by apply Hsub.
  - intros r Hr. rewrite Hrows. by apply occurrences_filter.
Qed.

Lemma count_rows_never_deduplicated_witness :
  ∃ out acc handed,
    aggregate Sample.directory = Ok out ∧
    accumulate Sample.directory = Ok acc ∧
    length (rows (all_calpads_data acc)) = 8%nat ∧
    occurrences
      [CNum 400; CStr Sample.school_level; CNum 101]
      (rows (all_calpads_data out)) = 4%nat ∧
    Forall2 contribution (jobs Sample.directory) handed ∧
    rows (all_calpads_data acc) = laid_out (all_calpads_data acc) handed ∧
    rows (all_calpads_data out) ≡ₚ
      filter (fun r => code_of (all_calpads_data acc) r
                         ∈ school_codes (all_school_data out))
        (rows (all_calpads_data acc)).
Proof.
  assert (H : ∃ out, aggregate Sample.directory = Ok out)
    by (eexists; vm_compute; reflexivity).
  destruct H as [out H].
  destruct (count_rows_never_deduplicated Sample.directory out H)
    as (acc & handed & Hacc & Hh & Hlaid & _ & _ & Hrows & _).
  exists out, acc, handed.
  assert (Hout : Ok out = aggregate Sample.directory) by (symmetry; exact H).
  assert (Hacc' : Ok acc = accumulate Sample.directory)
    by (symmetry; exact Hacc).
  vm_compute in Hout, Hacc'.
  apply Ok_inj in Hout. apply Ok_inj in Hacc'.
  split; [exact H|]. split; [exact Hacc|].
  split; [rewrite Hacc'; reflexivity|].
  split; [rewrite Hout; vm_compute; reflexivity|].
  split; [exact Hh|]. split; [exact Hlaid|exact Hrows].
Defined.

End Claims.

(** * Further properties of the notebook *)

(** ** The header normalisation, line 94 *)

Module NormalFacts.

Lemma sub_ws_from_plain (f : bool) (s : pystr) :
  plain_spaces (sub_ws_from f s).
Proof.
  revert f. induction s as [|c s IH]; intros f; [constructor|].
  simpl. destruct (is_space c) eqn:Hc.
  - destruct f; [apply IH|]. constructor; [done|apply IH].
  - constructor; [|apply IH]. congruence.
Qed.

(** Inside a match the scanner never starts its output with whitespace. *)
Lemma sub_ws_from_true_head (s : pystr) (c : N) :
  head (sub_ws_from true s) = Some c → is_space c = false.
Proof.
  induction s as [|c' s IH]; [done|].
  simpl. destruct (is_space c') eqn:Hc; [exact IH|].
  simpl. by intros [= <-].
Qed.

Lemma sub_ws_from_spaced (f : bool) (s : pystr) :
  spaced_once (sub_ws_from f s).
Proof.
  revert f. induction s as [|c s IH]; intros f; [done|].
  simpl. destruct (is_space c) eqn:Hc.
  - destruct f; [apply IH|].
    pose proof (IH true) as Hs. pose proof (sub_ws_from_true_head s) as Hh.
    destruct (sub_ws_from true s) as [|c' out]; [done|].
    split; [|done]. intros [_ Hc']. specialize (Hh c' eq_refl). congruence.
  - pose proof (IH false) as Hs.
    destruct (sub_ws_from false s) as [|c' out]; [done|].
    split; [|done]. intros [Hc' _]. congruence.
Qed.

Lemma sub_ws_from_fixed (s : pystr) :
  normal s →
  sub_ws_from false s = s ∧
  ((∀ c, head s = Some c → is_space c = false) → sub_ws_from true s = s).
Proof.
  induction s as [|c s IH]; intros [Hp Hs]; [done|].
  apply Forall_cons in Hp as [Hc Hp].
  assert (Hn : normal s).
  { split; [done|]. destruct s; [done|]. by destruct Hs. }
  destruct (IH Hn) as [IH1 IH2]. simpl.
  destruct (is_space c) eqn:Hsp.
  - split.
    + rewrite (Hc eq_refl). f_equal. apply IH2.
      intros c' Hh. destruct s as [|c'' s]; [done|]. injection Hh as ->.
      destruct Hs as [Hadj _]. destruct (is_space c') eqn:E; [|done].
      exfalso. by apply Hadj.
    + intros Hh. specialize (Hh c eq_refl). congruence.
  - split; [by rewrite IH1|]. intros _. by rewrite IH1.
Qed.

Lemma sub_ws_from_solid (f : bool) (s : pystr) :
  solid (sub_ws_from f s) = solid s.
Proof.
  unfold solid. revert f. induction s as [|c s IH]; intros f; [done|].
  cbn [sub_ws_from]. destruct (is_space c) eqn:Hc.
  - rewrite (filter_cons_False _ c s) by congruence.
    destruct f; [apply IH|].
    rewrite filter_cons_False by (by vm_compute). apply IH.
  - rewrite (filter_cons_True _ c s) by done.
    rewrite filter_cons_True by done. f_equal. apply IH.
Qed.

(** The scanner over a concatenation: it goes on over the second part
    in the state the first part left it in. *)
Lemma sub_ws_from_app (f : bool) (a t : pystr) :
  sub_ws_from f (a ++ t) =
    sub_ws_from f a ++ sub_ws_from (in_match_after f a) t.
Proof.
  revert f. induction a as [|c a IH]; intros f; [done|].
  assert (Hl : ∀ g, in_match_after g (c :: a) = in_match_after (is_space c) a).
  { intros g. unfold in_match_after. rewrite last_cons.
    by destruct (last a). }
  rewrite (Hl f). simpl. destruct (is_space c) eqn:Hc.
  - destruct f; simpl; by rewrite IH.
  - simpl. by rewrite IH.
Qed.

Lemma sub_ws_from_blank (f : bool) (w : pystr) :
  blank w →
  sub_ws_from f w = (if f then [] else [SPACE]) ∧ in_match_after f w = true.
Proof.
  intros [Hne Hall]. revert f.
  induction w as [|c w IH]; intros f; [done|].
  apply Forall_cons in Hall as [Hc Hall].
  destruct w as [|c' w].
  - cbn [sub_ws_from]. rewrite Hc. split; [by destruct f|].
    unfold in_match_after. cbn [last]. exact Hc.
  - destruct (IH ltac:(done) Hall true) as [IH1 IH2].
    split.
    + change (sub_ws_from f (c :: c' :: w))
        with (if is_space c
              then (if f then sub_ws_from true (c' :: w)
                    else SPACE :: sub_ws_from true (c' :: w))
              else c :: sub_ws_from false (c' :: w)).
      rewrite Hc, IH1. by destruct f.
    + unfold in_match_after in *. rewrite last_cons_cons.
      destruct (last (c' :: w)) eqn:E; [exact IH2|].
      by apply last_None in E.
Qed.

Lemma sub_ws_from_length (f : bool) (s : pystr) :
  length (sub_ws_from f s) ≤ length s.
Proof.
  revert f. induction s as [|c s IH]; intros f; [done|].
  simpl. destruct (is_space c); [destruct f|]; simpl.
  - pose proof (IH true). lia.
  - pose proof (IH true). lia.
  - pose proof (IH false). lia.
Qed.

(** A text that ends with whitespace is normalised to one that ends
    with a space. *)
Lemma sub_ws_from_last (s : pystr) (c : N) :
  last s = Some c → is_space c = true →
  last (sub_ws_from false s) = Some SPACE.
Proof.
  revert c. induction s as [|c' s IH] using rev_ind; intros c; [done|].
  rewrite last_snoc. intros [= ->] Hc. rewrite sub_ws_from_app.
  cbn [sub_ws_from]. rewrite Hc.
  destruct (in_match_after false s) eqn:Hf.
  - rewrite app_nil_r. unfold in_match_after in Hf.
    destruct (last s) as [c0|] eqn:Hl; [|done]. by apply (IH c0).
  - by rewrite last_snoc.
Qed.

End NormalFacts.

(** ** The exceptions of [load_sheet], lines 92 to 97 *)

Module LoadErrors.
Import Aggregator PandasFacts LoadSheetFacts.

Lemma read_excel_absent (wb : workbook) (name : pystr) :
  name ∉ wb.*1 → read_excel wb name = Raise ValueError.
Proof.
  induction wb as [|[n f] wb IH]; intros Hn; [done|].
  rewrite fmap_cons in Hn. apply not_elem_of_cons in Hn as [Hne Hn].
  simpl in *. rewrite decide_False by done. by apply IH.
Qed.

Lemma read_excel_present (wb : workbook) (name : pystr) :
  name ∈ wb.*1 → ∃ raw, read_excel wb name = Ok raw ∧ (name, raw) ∈ wb.
Proof.
  induction wb as [|[n f] wb IH]; intros Hn.
  - by apply elem_of_nil in Hn.
  - simpl. destruct (decide (n = name)) as [->|Hne].
    + exists f. split; [done|left].
    + rewrite fmap_cons in Hn. apply elem_of_cons in Hn as [?|Hn]; [done|].
      destruct (IH Hn) as (raw & ? & ?). exists raw. split; [done|by right].
Qed.

Lemma read_excel_raises (wb : workbook) (name : pystr) (e : exn) :
  read_excel wb name = Raise e → e = ValueError.
Proof.
  induction wb as [|[n f] wb IH]; simpl; [by intros [= <-]|].
  by case_decide.
Qed.

Lemma colnames_raises (r : list cell) (e : exn) :
  colnames r = Raise e → e = TypeError.
Proof.
  induction r as [|c r IH]; [done|].
  simpl. destruct c as [|t|z]; simpl; try by intros [= <-].
  destruct (colnames r) as [ns|e']; [done|]. simpl. intros [= <-].
  by apply IH.
Qed.

Lemma colnames_non_text (r : list cell) (c : cell) :
  c ∈ r → (∀ t, c ≠ CStr t) → colnames r = Raise TypeError.
Proof.
  intros Hin Hc. destruct (colnames r) as [names|e] eqn:E.
  - apply colnames_Ok in E as (texts & -> & _).
    apply list_elem_of_fmap in Hin as (t & -> & _). by destruct (Hc t).
  - by rewrite (colnames_raises _ _ E).
Qed.

Lemma load_sheet_raises (wb : workbook) (name : pystr) (e : exn) :
  load_sheet wb name = Raise e → loop_exn e.
Proof.
  unfold load_sheet, loop_exn.
  destruct (read_excel wb name) as [raw|e0] eqn:Hraw.
  2:{ intros [= <-]. left. by eapply read_excel_raises. }
  cbn [mbind outcome_bind]. unfold iloc0.
  destruct (rows raw) as [|hdr rest].
  { intros [= <-]. tauto. }
  cbn [mbind outcome_bind].
  destruct (colnames hdr) as [names|e0] eqn:Hn.
  2:{ intros [= <-]. rewrite (colnames_raises _ _ Hn). tauto. }
  cbn [mbind outcome_bind]. unfold set_columns. case_decide.
  2:{ intros [= <-]. tauto. }
  cbn [mbind outcome_bind]. unfold filter_eq, get_column.
  destruct (positions COUNTY_NAME _) as [|j [|]]; cbn [mbind outcome_bind];
    intros [= <-]; tauto.
Qed.

(** What a successful [load_sheet] started from, with the label count. *)
Lemma load_sheet_inv_full (wb : workbook) (name : pystr) (df : frame) :
  load_sheet wb name = Ok df →
  ∃ raw texts rest j,
    read_excel wb name = Ok raw ∧
    rows raw = (CStr <$> texts) :: rest ∧
    length texts = length (columns raw) ∧
    positions COUNTY_NAME (sub_ws <$> texts) = [j] ∧
    df = Frame (sub_ws <$> texts)
           (filter (fun r => cell_nth r j = CStr SAN_FRANCISCO) (rows raw)).
Proof.
  intros H. pose proof H as H0. unfold load_sheet in H0.
  apply bind_Ok in H0 as (raw & Hraw & H0).
  apply bind_Ok in H0 as (hdr & Hhdr & H0).
  apply bind_Ok in H0 as (names & Hnames & H0).
  apply bind_Ok in H0 as (sheet & Hsheet & _).
  unfold iloc0 in Hhdr. destruct (rows raw) as [|hdr' rest] eqn:Hrows; [done|].
  apply Ok_inj in Hhdr. subst hdr'.
  apply colnames_Ok in Hnames as (texts & -> & ->).
  unfold set_columns in Hsheet. case_decide as Hlen; [|done].
  rewrite length_fmap in Hlen.
  destruct (load_sheet_inv _ _ _ H)
    as (raw' & hdr' & rest' & texts' & j & Hraw' & Hrows' & -> & Hcols & Hp
        & Hdf).
  rewrite Hraw in Hraw'. apply Ok_inj in Hraw'. subst raw'.
  rewrite Hrows in Hrows'. injection Hrows' as Htexts _.
  assert (Hinj : Inj (=) (=) CStr) by (by intros ? ? [= ->]).
  apply (inj (fmap CStr)) in Htexts. subst texts'.
  exists raw, texts, rest, j. rewrite Hcols in Hp.
  repeat split; try done.
  destruct df as [cols rs]. cbn [columns rows] in *. subst. by rewrite Hrows.
Qed.

End LoadErrors.

(** ** What the loops gather, lines 104 to 129 *)

Module GatherFacts.
Import Aggregator PandasFacts TableFacts ProjectFacts AccumulateFacts.

Lemma sheet_body_inv (wb : workbook) (name : pystr) (st st' : tables) :
  sheet_body wb st name = Ok st' →
  ∃ sheet school calpads X,
    load_sheet wb name = Ok sheet ∧
    project school_data_cols sheet = Ok school ∧
    project calpads_data_cols sheet = Ok calpads ∧
    pd_concat (all_school_data st) school = Ok X ∧
    all_school_data st' = drop_duplicates X ∧
    pd_concat (all_calpads_data st) (assign SOURCE_SHEET (CStr name) calpads)
      = Ok (all_calpads_data st').
Proof.
  unfold sheet_body. intros H.
  apply bind_Ok in H as (sheet & Hsheet & H).
  apply bind_Ok in H as (school & Hschool & H).
  apply bind_Ok in H as (calpads & Hcalpads & H).
  apply bind_Ok in H as (schools & Hschools & H).
  apply bind_Ok in H as (counts & Hcounts & H). apply Ok_inj in H. subst st'.
  apply fmap_Ok in Hschools as (X & HX & ->).
  by exists sheet, school, calpads, X.
Qed.

Lemma elem_of_union_labels (a b : list pystr) (c : pystr) :
  c ∈ union_labels a b ↔ c ∈ a ∨ c ∈ b.
Proof.
  unfold union_labels. rewrite elem_of_app, list_elem_of_filter.
  destruct (decide (c ∈ a)); tauto.
Qed.

Lemma elem_of_laid_rows (cols : list pystr) (parts : list frame)
    (r : list cell) :
  r ∈ laid_rows cols parts ↔
  ∃ sd r0, sd ∈ parts ∧ r0 ∈ rows sd ∧ r = reindex (columns sd) cols r0.
Proof.
  unfold laid_rows. rewrite list_elem_of_bind. split.
  - intros (sd & Hr & Hsd). apply list_elem_of_fmap in Hr as (r0 & -> & Hr0).
    by exists sd, r0.
  - intros (sd & r0 & Hsd & Hr0 & ->). exists sd. split; [|done].
    apply list_elem_of_fmap. by exists r0.
Qed.

Lemma tagged_counts_assign (wb : workbook) (name : pystr) (sheet calpads B : frame) :
  load_sheet wb name = Ok sheet →
  project calpads_data_cols sheet = Ok calpads →
  tagged_counts wb name = Ok B →
  B = assign SOURCE_SHEET (CStr name) calpads.
Proof.
  intros Hs Hc. unfold tagged_counts. rewrite Hs. cbn [mbind outcome_bind].
  rewrite Hc. cbn [mbind outcome_bind]. by intros ->%Ok_inj.
Qed.

Lemma sheet_body_gathered (wb : workbook) (name : pystr) (st st' : tables)
    (visited : list (workbook * pystr)) (handed : list (pystr * frame))
    (schools : list frame) :
  sheet_body wb st name = Ok st' →
  gathered st visited handed schools →
  ∃ B sd, gathered st' (visited ++ [(wb, name)]) (handed ++ [(name, B)])
            (schools ++ [sd]).
Proof.
  intros H (Hacc & Hh & Hs & HndS & HcolsS & HcolsC & HrowsS).
  destruct (sheet_body_step _ _ _ _ _ H Hacc) as (B & HB & Hacc').
  destruct (sheet_body_inv _ _ _ _ H)
    as (sheet & school & calpads & X & Hsheet & Hschool & Hcalpads
        & HX & HS' & HC').
  pose proof (tagged_counts_assign _ _ _ _ _ Hsheet Hcalpads HB) as HBeq.
  rewrite <- HBeq in HC'.
  apply pd_concat_inv in HX as (_ & Hnd2 & HXcols & HXrows).
  apply pd_concat_inv in HC' as (_ & _ & HCcols & _).
  exists B, school. unfold gathered.
  split; [done|]. split.
  { apply Forall2_app; [done|]. by repeat constructor. }
  split.
  { apply Forall2_app; [done|]. repeat constructor. simpl.
    unfold school_part. rewrite Hsheet. exact Hschool. }
  rewrite HS', drop_duplicates_columns, HXcols.
  split; [by apply union_labels_NoDup|]. split; [|split].
  - intros c. rewrite elem_of_union_labels, HcolsS. split.
    + intros [(sd & Hsd & Hc)|Hc].
      * exists sd. split; [|done]. apply elem_of_app. by left.
      * exists school. split; [|done]. apply elem_of_app. right. left.
    + intros (sd & [Hsd|Hsd%list_elem_of_singleton]%elem_of_app & Hc).
      * left. by exists sd.
      * right. by subst.
  - intros c. rewrite HCcols, elem_of_union_labels. intros [Hc|Hc].
    + destruct (HcolsC c Hc) as (nf & Hnf & ?). exists nf.
      split; [|done]. apply elem_of_app. by left.
    + exists (name, B). split; [|done]. apply elem_of_app. right. left.
  - intros r. rewrite drop_duplicates_elem, HXrows, HXcols.
    rewrite elem_of_app, !list_elem_of_fmap, elem_of_laid_rows. split.
    + intros [(r1 & -> & Hr1)|(r0 & -> & Hr0)].
      * apply HrowsS, elem_of_laid_rows in Hr1 as (sd & r0 & Hsd & Hr0 & ->).
        exists sd, r0. split; [apply elem_of_app; by left|]. split; [done|].
        apply reindex_reindex. intros c Hc. apply HcolsS. by exists sd.
      * exists school, r0. split; [|done]. apply elem_of_app. right. left.
    + intros (sd & r0 & [Hsd|Hsd%list_elem_of_singleton]%elem_of_app
              & Hr0 & ->).
      * left. exists (reindex (columns sd) (columns (all_school_data st)) r0).
        split.
        -- symmetry. apply reindex_reindex. intros c Hc. apply HcolsS.
           by exists sd.
        -- apply HrowsS, elem_of_laid_rows. by exists sd, r0.
      * right. subst sd. by exists r0.
Qed.

Lemma jobs_gathered (js : list (workbook * pystr)) (st st' : tables)
    (visited : list (workbook * pystr)) (handed : list (pystr * frame))
    (schools : list frame) :
  for_each job_body js st = Ok st' →
  gathered st visited handed schools →
  ∃ handed' schools', gathered st' (visited ++ js) handed' schools'.
Proof.
  revert st visited handed schools.
  induction js as [|[wb name] js IH]; intros st visited handed schools H Hg.
  - apply Ok_inj in H. subst st'. exists handed, schools.
    by rewrite app_nil_r.
  - cbn [for_each] in H. apply bind_Ok in H as (st1 & H1 & H).
    destruct (sheet_body_gathered _ _ _ _ _ _ _ H1 Hg) as (B & sd & Hg1).
    destruct (IH _ _ _ _ H Hg1) as (handed' & schools' & Hg').
    exists handed', schools'. by rewrite <- app_assoc in Hg'.
Qed.

Lemma accumulate_gathered (directory : list workbook) (st : tables) :
  accumulate directory = Ok st →
  ∃ handed schools, gathered st (jobs directory) handed schools.
Proof.
  unfold accumulate. rewrite accumulate_jobs. intros H.
  apply (jobs_gathered _ _ _ [] [] []) in H; [done|].
  unfold gathered, accumulated. cbn.
  split.
  { split; [by left|]. split; [constructor|]. split; [constructor|done]. }
  split; [constructor|]. split; [constructor|]. split; [constructor|].
  split; [|split].
  - intros c. split; [by intros ?%elem_of_nil|].
    by intros (? & ?%elem_of_nil & _).
  - by intros c ?%elem_of_nil.
  - done.
Qed.

End GatherFacts.

(** ** When the cell completes, lines 104 to 132 *)

Module OutcomeFacts.
Import Aggregator PandasFacts TableFacts ProjectFacts AccumulateFacts.
Import LoadErrors GatherFacts.

Lemma value_key (d : list (pystr * pystr)) (k k' v : pystr) :
  NoDup d.*2 → (k, v) ∈ d → (k', v) ∈ d → k = k'.
Proof.
  induction d as [|[k0 v0] d IH]; intros Hnd H1 H2.
  - by apply elem_of_nil in H1.
  - rewrite fmap_cons in Hnd. apply NoDup_cons in Hnd as [Hv Hnd].
    apply elem_of_cons in H1 as [H1|H1];
      apply elem_of_cons in H2 as [H2|H2].
    + congruence.
    + inversion H1; subst. exfalso. apply Hv.
      by apply (list_elem_of_fmap_2 snd) in H2.
    + inversion H2; subst. exfalso. apply Hv.
      by apply (list_elem_of_fmap_2 snd) in H1.
    + by apply IH.
Qed.

Lemma school_values_NoDup : NoDup school_data_cols.*2.
Proof. apply (bool_decide_unpack _). vm_compute. exact I. Qed.

Lemma calpads_values_NoDup : NoDup calpads_data_cols.*2.
Proof. apply (bool_decide_unpack _). vm_compute. exact I. Qed.

Lemma school_part_inv (wb : workbook) (name : pystr) (sd : frame) :
  school_part wb name = Ok sd →
  ∃ sheet,
    load_sheet wb name = Ok sheet ∧
    sd = Frame
           (kv ← school_data_cols;
            (fun _ => kv.2) <$> positions kv.1 (columns sheet))
           (projected school_data_cols sheet <$> rows sheet).
Proof.
  unfold school_part. intros H. apply bind_Ok in H as (sheet & Hs & H).
  rewrite (project_Ok _ _ school_keys_NoDup) in H. apply Ok_inj in H.
  by exists sheet.
Qed.

Lemma tagged_counts_inv (wb : workbook) (name : pystr) (B : frame) :
  tagged_counts wb name = Ok B →
  ∃ sheet,
    load_sheet wb name = Ok sheet ∧
    columns B =
      (kv ← calpads_data_cols;
       (fun _ => kv.2) <$> positions kv.1 (columns sheet))
      ++ [SOURCE_SHEET] ∧
    rows B =
      (fun r => projected calpads_data_cols sheet r ++ [CStr name])
        <$> rows sheet.
Proof.
  unfold tagged_counts. intros H. apply bind_Ok in H as (sheet & Hs & H).
  apply bind_Ok in H as (calpads & Hc & H). apply Ok_inj in H. subst B.
  rewrite (project_Ok _ _ calpads_keys_NoDup) in Hc. apply Ok_inj in Hc.
  subst calpads. exists sheet. split; [done|].
  unfold assign. cbn [columns rows]. rewrite decide_False.
  - cbn [columns rows]. split; [done|]. by rewrite <- list_fmap_compose.
  - intros (k & Hin & _)%project_columns_elem.
    apply source_sheet_fresh. by apply (list_elem_of_fmap_2 snd) in Hin.
Qed.

Lemma visited_school (visited : list (workbook * pystr))
    (schools : list frame) (job : workbook * pystr) :
  Forall2 (fun job sd => school_part job.1 job.2 = Ok sd) visited schools →
  job ∈ visited → ∃ sd, sd ∈ schools ∧ school_part job.1 job.2 = Ok sd.
Proof.
  intros HF (i & Hi)%list_elem_of_lookup.
  destruct (Forall2_lookup_l _ _ _ _ _ HF Hi) as (sd & Hsd & H).
  exists sd. split; [|done]. by eapply list_elem_of_lookup_2.
Qed.

Lemma school_visited (visited : list (workbook * pystr))
    (schools : list frame) (sd : frame) :
  Forall2 (fun job sd => school_part job.1 job.2 = Ok sd) visited schools →
  sd ∈ schools → ∃ job, job ∈ visited ∧ school_part job.1 job.2 = Ok sd.
Proof.
  intros HF (i & Hi)%list_elem_of_lookup.
  destruct (Forall2_lookup_r _ _ _ _ _ HF Hi) as (job & Hjob & H).
  exists job. split; [|done]. by eapply list_elem_of_lookup_2.
Qed.

Lemma visited_handed (visited : list (workbook * pystr))
    (handed : list (pystr * frame)) (job : workbook * pystr) :
  Forall2 contribution visited handed →
  job ∈ visited → ∃ nf, nf ∈ handed ∧ contribution job nf.
Proof.
  intros HF (i & Hi)%list_elem_of_lookup.
  destruct (Forall2_lookup_l _ _ _ _ _ HF Hi) as (nf & Hnf & H).
  exists nf. split; [|done]. by eapply list_elem_of_lookup_2.
Qed.

Lemma handed_visited (visited : list (workbook * pystr))
    (handed : list (pystr * frame)) (nf : pystr * frame) :
  Forall2 contribution visited handed →
  nf ∈ handed → ∃ job, job ∈ visited ∧ contribution job nf.
Proof.
  intros HF (i & Hi)%list_elem_of_lookup.
  destruct (Forall2_lookup_r _ _ _ _ _ HF Hi) as (job & Hjob & H).
  exists job. split; [|done]. by eapply list_elem_of_lookup_2.
Qed.

(** A label of the school table is there because some visited sheet
    carries the header mapped to it. *)
Lemma school_label_seen (directory : list workbook) (st : tables)
    (k v : pystr) :
  accumulate directory = Ok st →
  (k, v) ∈ school_data_cols →
  v ∈ columns (all_school_data st) ↔ seen directory k.
Proof.
  intros (handed & schools & _ & _ & Hs & _ & Hcols & _)%accumulate_gathered
    Hkv.
  rewrite Hcols. split.
  - intros (sd & Hsd & Hv).
    destruct (school_visited _ _ _ Hs Hsd) as (job & Hjob & Hpart).
    apply school_part_inv in Hpart as (sheet & Hsheet & ->).
    cbn [columns] in Hv. apply project_columns_elem in Hv as (k' & Hk' & Hin).
    rewrite (value_key _ _ _ _ school_values_NoDup Hkv Hk').
    by exists job, sheet.
  - intros (job & sheet & Hjob & Hsheet & Hk).
    destruct (visited_school _ _ _ Hs Hjob) as (sd & Hsd & Hpart).
    exists sd. split; [done|].
    apply school_part_inv in Hpart as (sheet' & Hsheet' & ->).
    rewrite Hsheet in Hsheet'. apply Ok_inj in Hsheet'. subst sheet'.
    cbn [columns]. apply project_columns_elem. by exists k.
Qed.

Lemma count_label_seen (directory : list workbook) (st : tables)
    (k v : pystr) :
  accumulate directory = Ok st →
  (k, v) ∈ calpads_data_cols →
  v ∈ columns (all_calpads_data st) ↔ seen directory k.
Proof.
  intros (handed & schools & Hacc & Hh & _ & _ & _ & Hcols & _)%accumulate_gathered
    Hkv.
  destruct Hacc as (_ & _ & Hsub & _). rewrite Forall_forall in Hsub.
  split.
  - intros (nf & Hnf & Hv)%Hcols.
    destruct (handed_visited _ _ _ Hh Hnf) as (job & Hjob & _ & Hpart).
    apply tagged_counts_inv in Hpart as (sheet & Hsheet & HB & _).
    rewrite HB in Hv. apply elem_of_app in Hv as [Hv|Hv].
    + apply project_columns_elem in Hv as (k' & Hk' & Hin).
      rewrite (value_key _ _ _ _ calpads_values_NoDup Hkv Hk').
      by exists job, sheet.
    + apply list_elem_of_singleton in Hv. subst v. exfalso.
      apply source_sheet_fresh. by apply (list_elem_of_fmap_2 snd) in Hkv.
  - intros (job & sheet & Hjob & Hsheet & Hk).
    destruct (visited_handed _ _ _ Hh Hjob) as (nf & Hnf & _ & Hpart).
    apply (Hsub nf Hnf).
    apply tagged_counts_inv in Hpart as (sheet' & Hsheet' & HB & _).
    rewrite Hsheet in Hsheet'. apply Ok_inj in Hsheet'. subst sheet'.
    rewrite HB. apply elem_of_app. left.
    apply project_columns_elem. by exists k.
Qed.

Lemma post_pass_no_grade (st : tables) :
  GRADE_LOW ∉ columns (all_school_data st) →
  post_pass st = Raise AttributeError.
Proof.
  intros H%positions_nil. unfold post_pass, get_column. by rewrite H.
Qed.

Lemma post_pass_no_code (st : tables) :
  NoDup (columns (all_school_data st)) →
  GRADE_LOW ∈ columns (all_school_data st) →
  SCHOOL_CODE ∉ columns (all_school_data st) →
  post_pass st = Raise KeyError.
Proof.
  intros Hnd Hg Hc. unfold post_pass, get_column.
  destruct (positions_NoDup _ _ Hnd Hg) as [j ->].
  cbn [mbind outcome_bind]. unfold getitem_list.
  rewrite decide_False; [done|].
  rewrite Forall_singleton. exact Hc.
Qed.

Lemma post_pass_returns (st : tables) :
  NoDup (columns (all_school_data st)) →
  NoDup (columns (all_calpads_data st)) →
  GRADE_LOW ∈ columns (all_school_data st) →
  SCHOOL_CODE ∈ columns (all_school_data st) →
  SCHOOL_CODE ∈ columns (all_calpads_data st) →
  ∃ out, post_pass st = Ok out.
Proof.
  intros HndS HndC Hg Hc HcC. unfold post_pass, get_column.
  destruct (positions_NoDup _ _ HndS Hg) as [j ->].
  cbn [mbind outcome_bind]. unfold getitem_list.
  rewrite decide_True by (by rewrite Forall_singleton).
  cbn [mbind outcome_bind].
  destruct (positions_NoDup _ _ HndS Hc) as [k Hk].
  set (codes := Frame _ _).
  assert (Hcodes : columns (drop_duplicates codes) = [SCHOOL_CODE]).
  { rewrite drop_duplicates_columns. unfold codes. cbn [columns boolean_index].
    rewrite bind_singleton, Hk. done. }
  unfold df_merge. rewrite Hcodes.
  rewrite decide_False.
  2:{ intros Hnil. assert (Hin : SCHOOL_CODE ∈
        filter (fun c => c ∈ [SCHOOL_CODE]) (columns (all_calpads_data st))).
      { apply list_elem_of_filter. split; [left|done]. }
      rewrite Hnil in Hin. by apply elem_of_nil in Hin. }
  rewrite decide_True.
  2:{ split; [done|]. apply NoDup_singleton. }
  cbn [mbind outcome_bind]. by eexists.
Qed.

Lemma pd_concat_raises (a b : frame) (e : exn) :
  pd_concat a b = Raise e → e = RepeatedLabel.
Proof. unfold pd_concat. case_decide; [done|]. by intros [= <-]. Qed.

Lemma sheet_body_raises (wb : workbook) (name : pystr) (st : tables)
    (e : exn) :
  sheet_body wb st name = Raise e → loop_exn e.
Proof.
  unfold sheet_body.
  destruct (load_sheet wb name) as [sheet|e0] eqn:Hs.
  2:{ intros [= <-]. by eapply load_sheet_raises. }
  cbn [mbind outcome_bind].
  rewrite !(project_Ok _ sheet school_keys_NoDup).
  rewrite !(project_Ok _ sheet calpads_keys_NoDup).
  cbn [mbind outcome_bind].
  destruct (pd_concat (all_school_data st) _) as [X|e0] eqn:HX.
  2:{ apply pd_concat_raises in HX as ->. intros [= <-].
      unfold loop_exn. tauto. }
  cbn [mbind outcome_bind fmap outcome_fmap].
  destruct (pd_concat (all_calpads_data st) _) as [C|e0] eqn:HC; [done|].
  apply pd_concat_raises in HC as ->. intros [= <-]. unfold loop_exn. tauto.
Qed.

Lemma for_each_raises {S A : Type} (body : S → A → outcome S)
    (P : exn → Prop) (l : list A) (st : S) (e : exn) :
  (∀ st x e, body st x = Raise e → P e) →
  for_each body l st = Raise e → P e.
Proof.
  intros Hbody. revert st. induction l as [|x l IH]; intros st; [done|].
  cbn [for_each]. destruct (body st x) as [st'|e0] eqn:Hx.
  - cbn [mbind outcome_bind]. apply IH.
  - intros [= <-]. by eapply Hbody.
Qed.

Lemma accumulate_raises (directory : list workbook) (e : exn) :
  accumulate directory = Raise e → loop_exn e.
Proof.
  unfold accumulate. rewrite accumulate_jobs.
  apply for_each_raises. intros st [wb name] e0. apply sheet_body_raises.
Qed.

End OutcomeFacts.

(** ** Cells through projection and concatenation *)

Module CellFacts.
Import Aggregator PandasFacts TableFacts ProjectFacts AccumulateFacts.
Import GatherFacts OutcomeFacts.

Lemma index_of_app_l (v : pystr) (l1 l2 : list pystr) :
  v ∈ l1 → index_of v (l1 ++ l2) = index_of v l1.
Proof.
  induction l1 as [|c l1 IH]; intros Hv; [by apply elem_of_nil in Hv|].
  simpl. case_decide; [done|].
  apply elem_of_cons in Hv as [?|Hv]; [congruence|]. by rewrite IH.
Qed.

Lemma index_of_app_r (v : pystr) (l1 l2 : list pystr) :
  v ∉ l1 →
  index_of v (l1 ++ l2) = (fun j => (length l1 + j)%nat) <$> index_of v l2.
Proof.
  induction l1 as [|c l1 IH]; intros Hv.
  - simpl. by destruct (index_of v l2).
  - apply not_elem_of_cons in Hv as [Hne Hv]. simpl.
    rewrite decide_False by done. rewrite (IH Hv).
    by destruct (index_of v l2).
Qed.

Lemma cell_at_app_l (l1 l2 : list pystr) (c1 c2 : list cell) (v : pystr) :
  v ∈ l1 → length l1 = length c1 →
  cell_at (l1 ++ l2) (c1 ++ c2) v = cell_at l1 c1 v.
Proof.
  intros Hv Hlen. unfold cell_at. rewrite (index_of_app_l _ _ _ Hv).
  destruct (index_of v l1) as [j|] eqn:E; [|done].
  apply index_of_Some, lookup_lt_Some in E.
  unfold cell_nth. rewrite lookup_app_l; [done|lia].
Qed.

Lemma cell_at_app_r (l1 l2 : list pystr) (c1 c2 : list cell) (v : pystr) :
  v ∉ l1 → length l1 = length c1 →
  cell_at (l1 ++ l2) (c1 ++ c2) v = cell_at l2 c2 v.
Proof.
  intros Hv Hlen. unfold cell_at. rewrite (index_of_app_r _ _ _ Hv).
  destruct (index_of v l2) as [j|]; [|done]. simpl.
  unfold cell_nth. rewrite lookup_app_r by lia. do 2 f_equal. lia.
Qed.

(** Under the canonical name of a header, a projected row holds the
    cell the sheet row has under that header. *)
Lemma projected_cell (d : list (pystr * pystr)) (sheet : frame)
    (r : list cell) (k v : pystr) :
  NoDup d.*2 → (k, v) ∈ d →
  cell_at (kv ← d; (fun _ => kv.2) <$> positions kv.1 (columns sheet))
    (projected d sheet r) v
  = cell_at (columns sheet) r k.
Proof.
  unfold projected. induction d as [|[k0 v0] d IH]; intros Hnd Hin.
  - by apply elem_of_nil in Hin.
  - rewrite fmap_cons in Hnd. apply NoDup_cons in Hnd as [Hv0 Hnd].
    rewrite !bind_cons. cbn [fst snd].
    assert (Hlen : length ((fun _ : nat => v0) <$> positions k0 (columns sheet))
                   = length (cell_nth r <$> positions k0 (columns sheet)))
      by (by rewrite !length_fmap).
    apply elem_of_cons in Hin as [Heq|Hin].
    + inversion Heq; subst k0 v0.
      destruct (positions k (columns sheet)) as [|j ps] eqn:Hp.
      * simpl. rewrite !cell_at_absent; [done| |].
        -- by apply positions_nil.
        -- intros (k' & Hk' & _)%project_columns_elem.
           apply Hv0. by apply (list_elem_of_fmap_2 snd) in Hk'.
      * rewrite cell_at_app_l; [|rewrite fmap_cons; left|done].
        unfold cell_at at 2. rewrite index_of_head, Hp. simpl.
        unfold cell_at. cbn [index_of]. by rewrite decide_True.
    + assert (Hne : v ≠ v0).
      { intros ->. apply Hv0. by apply (list_elem_of_fmap_2 snd) in Hin. }
      rewrite cell_at_app_r; [by apply IH| |done].
      intros (? & ? & _)%list_elem_of_fmap. done.
Qed.

(** The tag sits after the projected cells and hides none of them. *)
Lemma tagged_cell (labels : list pystr) (cells : list cell) (tag : cell)
    (v : pystr) :
  length labels = length cells → v ≠ SOURCE_SHEET →
  cell_at (labels ++ [SOURCE_SHEET]) (cells ++ [tag]) v
  = cell_at labels cells v.
Proof.
  intros Hlen Hv. destruct (decide (v ∈ labels)) as [Hin|Hin].
  - by apply cell_at_app_l.
  - rewrite cell_at_app_r by done. rewrite (cell_at_absent labels) by done.
    unfold cell_at. simpl. by rewrite decide_False.
Qed.

Lemma reindex_length (old new : list pystr) (r : list cell) :
  length (reindex old new r) = length new.
Proof. unfold reindex. by rewrite length_fmap. Qed.

Lemma gathered_rectangular (st : tables) (visited : list (workbook * pystr))
    (handed : list (pystr * frame)) (schools : list frame) :
  gathered st visited handed schools →
  rectangular (all_school_data st) ∧ rectangular (all_calpads_data st).
Proof.
  intros ((_ & _ & _ & Hrows) & _ & _ & _ & _ & _ & HrowsS).
  unfold rectangular. split; apply Forall_forall; intros r Hr.
  - apply HrowsS, elem_of_laid_rows in Hr as (sd & r0 & _ & _ & ->).
    apply reindex_length.
  - rewrite Hrows in Hr. unfold laid_out in Hr.
    apply list_elem_of_bind in Hr as (nf & Hr & _).
    apply list_elem_of_fmap in Hr as (r0 & -> & _). apply reindex_length.
Qed.

End CellFacts.

(** ** The rows of the two tables *)

Module RowFacts.
Import Aggregator PandasFacts TableFacts ProjectFacts AccumulateFacts.
Import LoadErrors GatherFacts OutcomeFacts CellFacts.

Lemma elem_of_jobs (directory : list workbook) (job : workbook * pystr) :
  job ∈ jobs directory ↔ job.1 ∈ directory ∧ job.2 ∈ sheet_names.
Proof.
  unfold jobs. rewrite list_elem_of_bind. destruct job as [wb name]. split.
  - intros (wb' & (n & [= -> ->] & Hn)%list_elem_of_fmap & Hwb). done.
  - intros [Hwb Hn]. exists wb. split; [|done].
    apply list_elem_of_fmap. by exists name.
Qed.

(** The three ways the statements after the loops can go, told by the
    headers the visited sheets carry. *)
Lemma post_pass_outcome (directory : list workbook) (st : tables) :
  accumulate directory = Ok st →
  (post_pass st = Raise AttributeError ∧ ¬ seen directory LOW_GRADE) ∨
  (post_pass st = Raise KeyError ∧ seen directory LOW_GRADE
     ∧ ¬ seen directory SCHOOL_CODE_HEADER) ∨
  ((∃ out, post_pass st = Ok out) ∧ seen directory LOW_GRADE
     ∧ seen directory SCHOOL_CODE_HEADER).
Proof.
  intros Hacc.
  assert (Hlow : (LOW_GRADE, GRADE_LOW) ∈ school_data_cols)
    by (apply (bool_decide_unpack _); vm_compute; exact I).
  assert (Hcode : (SCHOOL_CODE_HEADER, SCHOOL_CODE) ∈ school_data_cols)
    by (apply (bool_decide_unpack _); vm_compute; exact I).
  assert (Hcode' : (SCHOOL_CODE_HEADER, SCHOOL_CODE) ∈ calpads_data_cols)
    by (apply (bool_decide_unpack _); vm_compute; exact I).
  pose proof (school_label_seen _ _ _ _ Hacc Hlow) as HG.
  pose proof (school_label_seen _ _ _ _ Hacc Hcode) as HS.
  pose proof (count_label_seen _ _ _ _ Hacc Hcode') as HC.
  destruct (accumulate_gathered _ _ Hacc)
    as (handed & schools & (_ & HndC & _) & _ & _ & HndS & _).
  destruct (decide (GRADE_LOW ∈ columns (all_school_data st))) as [Hg|Hg].
  - destruct (decide (SCHOOL_CODE ∈ columns (all_school_data st))) as [Hs|Hs].
    + right. right. split; [|tauto].
      apply post_pass_returns; try done. tauto.
    + right. left. split; [by apply post_pass_no_code|tauto].
  - left. split; [by apply post_pass_no_grade|tauto].
Qed.

Lemma school_rows_acc (directory : list workbook) (st : tables)
    (row : list cell) :
  accumulate directory = Ok st →
  row ∈ rows (all_school_data st) ↔
  ∃ job sheet r,
    job ∈ jobs directory ∧ load_sheet job.1 job.2 = Ok sheet ∧
    r ∈ rows sheet ∧ row = school_row_of (all_school_data st) sheet r.
Proof.
  intros (handed & schools & _ & _ & Hs & _ & _ & _ & Hrows)%accumulate_gathered.
  rewrite Hrows, elem_of_laid_rows. split.
  - intros (sd & r0 & Hsd & Hr0 & ->).
    destruct (school_visited _ _ _ Hs Hsd) as (job & Hjob & Hpart).
    apply school_part_inv in Hpart as (sheet & Hsheet & ->).
    cbn [rows columns] in *.
    apply list_elem_of_fmap in Hr0 as (r & -> & Hr).
    by exists job, sheet, r.
  - intros (job & sheet & r & Hjob & Hsheet & Hr & ->).
    destruct (visited_school _ _ _ Hs Hjob) as (sd & Hsd & Hpart).
    apply school_part_inv in Hpart as (sheet' & Hsheet' & ->).
    rewrite Hsheet in Hsheet'. apply Ok_inj in Hsheet'. subst sheet'.
    eexists _, (projected school_data_cols sheet r).
    split; [exact Hsd|]. cbn [rows columns]. split; [|done].
    apply list_elem_of_fmap. by exists r.
Qed.

Lemma count_rows_acc (directory : list workbook) (st : tables)
    (row : list cell) :
  accumulate directory = Ok st →
  row ∈ rows (all_calpads_data st) ↔
  ∃ job sheet r,
    job ∈ jobs directory ∧ load_sheet job.1 job.2 = Ok sheet ∧
    r ∈ rows sheet ∧
    row = count_row_of (all_calpads_data st) sheet job.2 r.
Proof.
  intros (handed & schools & (_ & _ & _ & Hrows) & Hh & _)%accumulate_gathered.
  rewrite Hrows. unfold laid_out. rewrite list_elem_of_bind. split.
  - intros (nf & (r0 & -> & Hr0)%list_elem_of_fmap & Hnf).
    destruct (handed_visited _ _ _ Hh Hnf) as (job & Hjob & Hname & Hpart).
    apply tagged_counts_inv in Hpart as (sheet & Hsheet & HB & HBrows).
    rewrite HBrows in Hr0. apply list_elem_of_fmap in Hr0 as (r & -> & Hr).
    exists job, sheet, r. repeat split; try done.
    unfold count_row_of, count_labels. by rewrite HB.
  - intros (job & sheet & r & Hjob & Hsheet & Hr & ->).
    destruct (visited_handed _ _ _ Hh Hjob) as (nf & Hnf & Hname & Hpart).
    apply tagged_counts_inv in Hpart as (sheet' & Hsheet' & HB & HBrows).
    rewrite Hsheet in Hsheet'. apply Ok_inj in Hsheet'. subst sheet'.
    exists nf. split; [|done]. apply list_elem_of_fmap.
    exists (projected calpads_data_cols sheet r ++ [CStr job.2]).
    split.
    + unfold count_row_of, count_labels. by rewrite HB.
    + rewrite HBrows. apply list_elem_of_fmap. by exists r.
Qed.

(** The labels of the two running tables are canonical names. *)
Lemma school_labels_known (directory : list workbook) (st : tables)
    (c : pystr) :
  accumulate directory = Ok st →
  c ∈ columns (all_school_data st) → c ∈ school_data_cols.*2.
Proof.
  intros (handed & schools & _ & _ & Hs & _ & Hcols & _)%accumulate_gathered
    (sd & Hsd & Hc)%Hcols.
  destruct (school_visited _ _ _ Hs Hsd) as (job & _ & Hpart).
  apply school_part_inv in Hpart as (sheet & _ & ->). cbn [columns] in Hc.
  apply project_columns_elem in Hc as (k & Hk & _).
  by apply (list_elem_of_fmap_2 snd) in Hk.
Qed.

Lemma count_labels_known (directory : list workbook) (st : tables)
    (c : pystr) :
  accumulate directory = Ok st →
  c ∈ columns (all_calpads_data st) →
  c = SOURCE_SHEET ∨ c ∈ calpads_data_cols.*2.
Proof.
  intros (handed & schools & _ & Hh & _ & _ & _ & Hcols & _)%accumulate_gathered
    (nf & Hnf & Hc)%Hcols.
  destruct (handed_visited _ _ _ Hh Hnf) as (job & _ & _ & Hpart).
  apply tagged_counts_inv in Hpart as (sheet & _ & HB & _).
  rewrite HB in Hc. apply elem_of_app in Hc as [Hc|Hc].
  - right. apply project_columns_elem in Hc as (k & Hk & _).
    by apply (list_elem_of_fmap_2 snd) in Hk.
  - left. by apply list_elem_of_singleton in Hc.
Qed.

Lemma source_sheet_label (directory : list workbook) (st : tables) :
  accumulate directory = Ok st → directory ≠ [] →
  SOURCE_SHEET ∈ columns (all_calpads_data st).
Proof.
  intros (handed & schools & (_ & _ & Hsub & _) & Hh & _)%accumulate_gathered
    Hne.
  destruct directory as [|wb directory]; [done|].
  assert (Hjob : (wb, Cases.lea_level) ∈ jobs (wb :: directory)).
  { apply elem_of_jobs. split; [left|]. cbn.
    apply (bool_decide_unpack _). vm_compute. exact I. }
  destruct (visited_handed _ _ _ Hh Hjob) as (nf & Hnf & _ & Hpart).
  rewrite Forall_forall in Hsub. apply (Hsub nf Hnf).
  apply tagged_counts_inv in Hpart as (sheet & _ & HB & _).
  rewrite HB. apply elem_of_app. right. left.
Qed.

(** Under a canonical name, a row of a running table holds the cell
    its sheet row has under the mapped header. *)
Lemma school_row_cell (directory : list workbook) (st : tables)
    (job : workbook * pystr) (sheet : frame) (r : list cell) (k v : pystr) :
  accumulate directory = Ok st →
  job ∈ jobs directory → load_sheet job.1 job.2 = Ok sheet →
  (k, v) ∈ school_data_cols →
  cell_at (columns (all_school_data st))
    (school_row_of (all_school_data st) sheet r) v
  = cell_at (columns sheet) r k.
Proof.
  intros (handed & schools & _ & _ & Hs & _ & Hcols & _)%accumulate_gathered
    Hjob Hsheet Hkv.
  destruct (visited_school _ _ _ Hs Hjob) as (sd & Hsd & Hpart).
  apply school_part_inv in Hpart as (sheet' & Hsheet' & ->).
  rewrite Hsheet in Hsheet'. apply Ok_inj in Hsheet'. subst sheet'.
  unfold school_row_of. rewrite cell_at_reindex.
  - by apply projected_cell; [apply school_values_NoDup|].
  - destruct (decide (v ∈ school_labels sheet)) as [Hin|]; [left|by right].
    apply Hcols. eexists. split; [exact Hsd|]. exact Hin.
Qed.

Lemma count_labels_sub (directory : list workbook) (st : tables)
    (job : workbook * pystr) (sheet : frame) :
  accumulate directory = Ok st →
  job ∈ jobs directory → load_sheet job.1 job.2 = Ok sheet →
  count_labels sheet ⊆ columns (all_calpads_data st).
Proof.
  intros (handed & schools & (_ & _ & Hsub & _) & Hh & _)%accumulate_gathered
    Hjob Hsheet.
  destruct (visited_handed _ _ _ Hh Hjob) as (nf & Hnf & _ & Hpart).
  apply tagged_counts_inv in Hpart as (sheet' & Hsheet' & HB & _).
  rewrite Hsheet in Hsheet'. apply Ok_inj in Hsheet'. subst sheet'.
  rewrite Forall_forall in Hsub. destruct (Hsub nf Hnf) as [Hs _].
  unfold count_labels. by rewrite <- HB.
Qed.

Lemma count_row_cell (directory : list workbook) (st : tables)
    (job : workbook * pystr) (sheet : frame) (r : list cell) (k v : pystr) :
  accumulate directory = Ok st →
  job ∈ jobs directory → load_sheet job.1 job.2 = Ok sheet →
  (k, v) ∈ calpads_data_cols →
  cell_at (columns (all_calpads_data st))
    (count_row_of (all_calpads_data st) sheet job.2 r) v
  = cell_at (columns sheet) r k.
Proof.
  intros Hacc Hjob Hsheet Hkv.
  pose proof (count_labels_sub _ _ _ _ Hacc Hjob Hsheet) as Hsub.
  unfold count_row_of. rewrite cell_at_reindex.
  - unfold count_labels. rewrite tagged_cell.
    + by apply projected_cell; [apply calpads_values_NoDup|].
    + symmetry. apply project_rectangular.
    + intros ->. apply source_sheet_fresh.
      by apply (list_elem_of_fmap_2 snd) in Hkv.
  - destruct (decide (v ∈ count_labels sheet)) as [Hin|]; [left|by right].
    by apply Hsub.
Qed.

Lemma count_row_tag (directory : list workbook) (st : tables)
    (job : workbook * pystr) (sheet : frame) (r : list cell) :
  accumulate directory = Ok st →
  job ∈ jobs directory → load_sheet job.1 job.2 = Ok sheet →
  cell_at (columns (all_calpads_data st))
    (count_row_of (all_calpads_data st) sheet job.2 r) SOURCE_SHEET
  = CStr job.2.
Proof.
  intros Hacc Hjob Hsheet.
  pose proof (count_labels_sub _ _ _ _ Hacc Hjob Hsheet) as Hsub.
  unfold count_row_of. rewrite cell_at_reindex.
  - unfold count_labels. rewrite cell_at_app_r.
    + unfold cell_at. cbn [index_of]. by rewrite decide_True.
    + intros (k & Hk & _)%project_columns_elem.
      apply source_sheet_fresh. by apply (list_elem_of_fmap_2 snd) in Hk.
    + symmetry. apply project_rectangular.
  - left. apply Hsub. unfold count_labels. apply elem_of_app. right. left.
Qed.

End RowFacts.

(** * Further results *)

Module Extras.
Import Aggregator PandasFacts LoadSheetFacts ProjectFacts TableFacts.
Import PostPassFacts AccumulateFacts NormalFacts LoadErrors GatherFacts.
Import OutcomeFacts CellFacts RowFacts.

(** X1 — The header normalisation yields a text in which whitespace
    occurs only as single plain spaces; it changes nothing on such a
    text, and on no other; applying it twice is applying it once. *)
Theorem sub_ws_normal_form (s : pystr) :
  normal (sub_ws s) ∧
  sub_ws (sub_ws s) = sub_ws s ∧
  (sub_ws s = s ↔ normal s).
Proof.
  assert (Hn : ∀ t, normal (sub_ws t)).
  { intros t. split; [apply sub_ws_from_plain|apply sub_ws_from_spaced]. }
  split; [apply Hn|]. split.
  - by apply sub_ws_from_fixed.
  - split; [intros <-; apply Hn|]. intros H. by apply sub_ws_from_fixed.
Qed.

Lemma sub_ws_normal_form_witness :
  normal (py "County Name") ∧ sub_ws (py "County Name") = py "County Name".
Proof.
  destruct (sub_ws_normal_form (py "County Name")) as (_ & _ & Hiff).
  assert (H : sub_ws (py "County Name") = py "County Name")
    by (vm_compute; reflexivity).
  split; [exact (proj1 Hiff H)|exact H].
Defined.

(** X2 — The header normalisation keeps the code points that are not
    whitespace, all of them and in order, and never lengthens a text. *)
Theorem sub_ws_keeps_solid (s : pystr) :
  solid (sub_ws s) = solid s ∧ length (sub_ws s) ≤ length s.
Proof.
  split; [apply sub_ws_from_solid|apply sub_ws_from_length].
Qed.

(** X3 — The header normalisation does not see which whitespace stands
    between two parts of a text, nor how much of it: any non-empty
    stretch of whitespace there gives the same label. *)
Theorem sub_ws_any_blank (a b w1 w2 : pystr) :
  blank w1 → blank w2 →
  sub_ws (a ++ w1 ++ b) = sub_ws (a ++ w2 ++ b).
Proof.
  intros H1 H2. unfold sub_ws. rewrite !sub_ws_from_app.
  destruct (sub_ws_from_blank (in_match_after false a) w1 H1) as [-> ->].
  by destruct (sub_ws_from_blank (in_match_after false a) w2 H2) as [-> ->].
Qed.

Lemma sub_ws_any_blank_witness :
  sub_ws (py "School" ++ [10%N; 32%N] ++ py "Code")
  = sub_ws (py "School" ++ [160%N] ++ py "Code").
Proof.
  apply sub_ws_any_blank.
  - split; [done|]. repeat constructor.
  - split; [done|]. repeat constructor.
Defined.

(** X4 — The header normalisation does not trim: a text that begins
    with whitespace is normalised to one that begins with a space, and
    a text that ends with whitespace to one that ends with a space. *)
Theorem sub_ws_keeps_ends (s : pystr) (c : N) :
  is_space c = true →
  (head s = Some c → head (sub_ws s) = Some SPACE) ∧
  (last s = Some c → last (sub_ws s) = Some SPACE).
Proof.
  intros Hc. split.
  - destruct s as [|c' s]; [done|]. intros [= ->].
    unfold sub_ws. cbn [sub_ws_from]. by rewrite Hc.
  - intros Hl. by apply (sub_ws_from_last s c).
Qed.

Lemma sub_ws_keeps_ends_witness :
  last (sub_ws (py "County Name ")) = Some SPACE ∧
  sub_ws (py "County Name ") ≠ COUNTY_NAME.
Proof.
  split.
  - apply (sub_ws_keeps_ends (py "County Name ") 32%N); reflexivity.
  - vm_compute. discriminate.
Defined.

(** X5 — [load_sheet] raises [ValueError] when the workbook has no
    sheet of the name asked for, and [IndexError] when the sheet has no
    row under the line pandas took for the header. *)
Theorem load_sheet_sheet_errors (filename : workbook) (sheet_name : pystr) :
  (sheet_name ∉ filename.*1 →
   load_sheet filename sheet_name = Raise ValueError) ∧
  (∀ raw, read_excel filename sheet_name = Ok raw → rows raw = [] →
          load_sheet filename sheet_name = Raise IndexError).
Proof.
  split.
  - intros H. unfold load_sheet. by rewrite (read_excel_absent _ _ H).
  - intros raw Hraw Hrows. unfold load_sheet. rewrite Hraw.
    cbn [mbind outcome_bind]. unfold iloc0. by rewrite Hrows.
Qed.

Lemma load_sheet_sheet_errors_witness :
  load_sheet Cases.bare_book Cases.lea_level = Raise ValueError ∧
  load_sheet Cases.empty_book Cases.lea_level = Raise IndexError.
Proof.
  split.
  - apply (load_sheet_sheet_errors Cases.bare_book Cases.lea_level).
    apply (bool_decide_unpack _). vm_compute. exact I.
  - apply (proj2 (load_sheet_sheet_errors Cases.empty_book Cases.lea_level)
             Cases.empty_sheet); reflexivity.
Defined.

(** X6 — On a sheet that has a first row, [load_sheet] raises
    [TypeError] as soon as one cell of that row is not a text (an empty
    cell, a number), whatever the other cells hold; when all are texts
    and none normalises to [County Name], it raises [KeyError]. *)
Theorem load_sheet_header_errors (filename : workbook) (sheet_name : pystr)
    (raw : frame) (hdr : list cell) (rest : list (list cell)) :
  read_excel filename sheet_name = Ok raw →
  rows raw = hdr :: rest →
  ((∃ c, c ∈ hdr ∧ ∀ t, c ≠ CStr t) →
   load_sheet filename sheet_name = Raise TypeError) ∧
  (∀ texts, hdr = CStr <$> texts → length texts = length (columns raw) →
            COUNTY_NAME ∉ sub_ws <$> texts →
            load_sheet filename sheet_name = Raise KeyError).
Proof.
  intros Hraw Hrows. unfold load_sheet. rewrite Hraw.
  cbn [mbind outcome_bind]. unfold iloc0. rewrite Hrows.
  cbn [mbind outcome_bind]. split.
  - intros (c & Hc & Hnot). by rewrite (colnames_non_text hdr c).
  - intros texts -> Hlen Hno. rewrite colnames_texts.
    cbn [mbind outcome_bind]. unfold set_columns.
    rewrite decide_True by (by rewrite length_fmap).
    cbn [mbind outcome_bind]. unfold filter_eq, get_column. cbn [columns].
    apply positions_nil in Hno. by rewrite Hno.
Qed.

Lemma load_sheet_header_errors_witness :
  load_sheet Cases.holed_book Cases.lea_level = Raise TypeError ∧
  load_sheet Cases.trailing_book Cases.lea_level = Raise KeyError.
Proof.
  split.
  - apply (load_sheet_header_errors Cases.holed_book Cases.lea_level
             Cases.holed_sheet [CStr (py "County Name"); CNull]
             [[CStr (py "San Francisco"); CNum 1]]); [reflexivity..|].
    exists CNull. split; [right; left|done].
  - apply (proj2 (load_sheet_header_errors Cases.trailing_book Cases.lea_level
             Cases.trailing_sheet
             [CStr (py "County Name "); CStr (py "School Code")]
             [[CStr (py "San Francisco"); CNum 1]] eq_refl eq_refl)
             [py "County Name "; py "School Code"]); [reflexivity..|].
    apply (bool_decide_unpack _). vm_compute. exact I.
Defined.



(** X8 — A projection moves cells without touching them: under the
    canonical name of a header, the projected row holds the cell the
    sheet row has under that header (the empty cell when the sheet
    lacks the header), and the rows stay in order. *)
Theorem project_keeps_cells (d : list (pystr * pystr)) (sheet f : frame) :
  NoDup d.*1 → NoDup d.*2 →
  project d sheet = Ok f →
  rows f = projected d sheet <$> rows sheet ∧
  ∀ r k v, (k, v) ∈ d →
    cell_at (columns f) (projected d sheet r) v = cell_at (columns sheet) r k.
Proof.
  intros Hk Hv H. rewrite (project_Ok _ _ Hk) in H. apply Ok_inj in H.
  subst f. cbn [columns rows]. split; [done|].
  intros r k v Hin. by apply projected_cell.
Qed.

Lemma project_keeps_cells_witness :
  ∃ f,
    project school_data_cols Cases.loaded_sheet = Ok f ∧
    rows f = [ [CNum 101; CStr (py "K")]; [CNum 102; CNull] ] ∧
    cell_at (columns f)
      (projected school_data_cols Cases.loaded_sheet
         [CStr (py "San Francisco"); CStr (py "K"); CStr (py "No"); CNum 101])
      GRADE_LOW = CStr (py "K").
Proof.
  assert (H : ∃ f, project school_data_cols Cases.loaded_sheet = Ok f)
    by (eexists; vm_compute; reflexivity).
  destruct H as [f H]. exists f.
  destruct (project_keeps_cells school_data_cols Cases.loaded_sheet f)
    as [Hrows Hcells].
  - apply (bool_decide_unpack _). vm_compute. exact I.
  - apply (bool_decide_unpack _). vm_compute. exact I.
  - exact H.
  - split; [exact H|]. split.
    + rewrite Hrows. vm_compute. reflexivity.
    + rewrite (Hcells _ LOW_GRADE GRADE_LOW).
      * vm_compute. reflexivity.
      * apply (bool_decide_unpack _). vm_compute. exact I.
Defined.

(** X9 — The cell completes only if every workbook of the directory
    holds both named sheets and each of them loads: there is no
    skipping of a workbook or of a sheet. *)
Theorem aggregate_needs_every_sheet (directory : list workbook)
    (out : tables) (filename : workbook) (sheet_name : pystr) :
  aggregate directory = Ok out →
  filename ∈ directory → sheet_name ∈ sheet_names →
  sheet_name ∈ filename.*1 ∧
  ∃ sheet, load_sheet filename sheet_name = Ok sheet.
Proof.
  intros (acc & Hacc & _)%aggregate_inv Hwb Hname.
  destruct (accumulate_gathered _ _ Hacc) as (handed & schools & _ & Hh & _).
  assert (Hjob : (filename, sheet_name) ∈ jobs directory)
    by (by apply elem_of_jobs).
  destruct (visited_handed _ _ _ Hh Hjob) as (nf & _ & _ & Hpart).
  apply tagged_counts_inv in Hpart as (sheet & Hsheet & _). cbn in Hsheet.
  split; [|by exists sheet].
  destruct (decide (sheet_name ∈ filename.*1)) as [|Hno]; [done|].
  apply read_excel_absent in Hno. unfold load_sheet in Hsheet.
  by rewrite Hno in Hsheet.
Qed.

Lemma aggregate_needs_every_sheet_witness :
  Cases.lea_level ∈ Sample.book.*1 ∧
  ∃ sheet, load_sheet Sample.book Cases.lea_level = Ok sheet.
Proof.
  assert (H : ∃ out, aggregate Sample.directory = Ok out)
    by (eexists; vm_compute; reflexivity).
  destruct H as [out H].
  apply (aggregate_needs_every_sheet Sample.directory out); [exact H| |].
  - left.
  - left.
Defined.

(** X10 — The first sheet that fails ends the cell with its exception,
    whatever was accumulated before and whatever comes after: no table
    is returned. *)
Theorem first_failure_aborts (before after : list workbook)
    (filename : workbook) (st : tables) (e : exn) :
  accumulate before = Ok st →
  file_body st filename = Raise e →
  aggregate (before ++ filename :: after) = Raise e.
Proof.
  intros Hacc Hfail. unfold aggregate, accumulate in *.
  rewrite for_each_app, Hacc. cbn [mbind outcome_bind for_each].
  by rewrite Hfail.
Qed.

Lemma first_failure_aborts_witness :
  aggregate ([Sample.book] ++ Cases.bare_book :: [Sample.book])
  = Raise ValueError.
Proof.
  assert (H : ∃ st, accumulate [Sample.book] = Ok st)
    by (eexists; vm_compute; reflexivity).
  destruct H as [st H].
  apply (first_failure_aborts [Sample.book] [Sample.book] Cases.bare_book st);
    [exact H|].
  assert (Hst : Ok st = accumulate [Sample.book]) by (symmetry; exact H).
  vm_compute in Hst. apply Ok_inj in Hst. rewrite Hst.
  vm_compute. reflexivity.
Defined.





(** X13 — The labels of the two written tables: a canonical name of
    [school_data_cols] labels the school table exactly when some
    visited sheet carries its header, likewise for [calpads_data_cols]
    and the count table; the school table has no other label, the
    count table only [source_sheet] besides, which it always has. *)
Theorem written_labels (directory : list workbook) (out : tables) :
  aggregate directory = Ok out →
  (∀ k v, (k, v) ∈ school_data_cols →
     (v ∈ columns (all_school_data out) ↔ seen directory k)) ∧
  (∀ k v, (k, v) ∈ calpads_data_cols →
     (v ∈ columns (all_calpads_data out) ↔ seen directory k)) ∧
  (∀ c, c ∈ columns (all_school_data out) → c ∈ school_data_cols.*2) ∧
  (∀ c, c ∈ columns (all_calpads_data out) →
        c = SOURCE_SHEET ∨ c ∈ calpads_data_cols.*2) ∧
  SOURCE_SHEET ∈ columns (all_calpads_data out).
Proof.
  intros (acc & Hacc & Hpost)%aggregate_inv.
  destruct (post_pass_inv _ _ Hpost) as ([j Hj] & HcS & _ & HcC & _).
  rewrite HcS, HcC. split; [|split; [|split; [|split]]].
  - intros k v Hkv. by apply school_label_seen.
  - intros k v Hkv. by apply count_label_seen.
  - intros c. by apply (school_labels_known directory).
  - intros c. by apply (count_labels_known directory).
  - apply (source_sheet_label directory); [done|]. intros ->.
    unfold accumulate in Hacc. apply Ok_inj in Hacc. subst acc. done.
Qed.

Lemma written_labels_witness :
  ∃ out,
    aggregate Sample.directory = Ok out ∧
    columns (all_school_data out)
      = [py "school_code"; py "school_name"; py "grade_low"] ∧
    SOURCE_SHEET ∈ columns (all_calpads_data out).
Proof.
  assert (H : ∃ out, aggregate Sample.directory = Ok out)
    by (eexists; vm_compute; reflexivity).
  destruct H as [out H]. exists out.
  pose proof (written_labels Sample.directory out H) as (_ & _ & _ & _ & Hs).
  split; [exact H|]. split; [|exact Hs].
  assert (Hout : Ok out = aggregate Sample.directory) by (symmetry; exact H).
  vm_compute in Hout. apply Ok_inj in Hout. rewrite Hout. reflexivity.
Defined.



(** X15 — The written school table holds exactly the school rows of
    the visited sheets that have a [grade_low]: a row is in it if and
    only if it is the projection of a row of some loaded sheet, laid
    under the labels of the table, and its [grade_low] cell is not
    empty. *)
Theorem school_rows_characterised (directory : list workbook)
    (out : tables) (row : list cell) :
  aggregate directory = Ok out →
  row ∈ rows (all_school_data out) ↔
  cell_at (columns (all_school_data out)) row GRADE_LOW ≠ CNull ∧
  ∃ job sheet r,
    job ∈ jobs directory ∧ load_sheet job.1 job.2 = Ok sheet ∧
    r ∈ rows sheet ∧ row = school_row_of (all_school_data out) sheet r.
Proof.
  intros (acc & Hacc & Hpost)%aggregate_inv.
  destruct (post_pass_inv _ _ Hpost) as (_ & HcS & HrS & _).
  unfold school_row_of. rewrite HrS, HcS, list_elem_of_filter.
  by rewrite (school_rows_acc directory acc row Hacc).
Qed.

Lemma school_rows_characterised_witness :
  ∃ out,
    aggregate Sample.directory = Ok out ∧
    ([CNum 101; CStr (py "Lincoln"); CStr (py "K")]
       ∈ rows (all_school_data out) ↔
     cell_at (columns (all_school_data out))
       [CNum 101; CStr (py "Lincoln"); CStr (py "K")] GRADE_LOW ≠ CNull ∧
     ∃ job sheet r,
       job ∈ jobs Sample.directory ∧ load_sheet job.1 job.2 = Ok sheet ∧
       r ∈ rows sheet ∧
       [CNum 101; CStr (py "Lincoln"); CStr (py "K")]
         = school_row_of (all_school_data out) sheet r).
Proof.
  eexists. split; [vm_compute; reflexivity|].
  apply (school_rows_characterised Sample.directory).
  vm_compute. reflexivity.
Defined.

(** X16 — The written count table holds exactly the count rows of the
    visited sheets whose school code is in the written school table: a
    row is in it if and only if it is the projection of a row of some
    loaded sheet, tagged with the name of that sheet and laid under the
    labels of the table, and its code is one of the written school
    codes. *)
Theorem count_rows_characterised (directory : list workbook)
    (out : tables) (row : list cell) :
  aggregate directory = Ok out →
  row ∈ rows (all_calpads_data out) ↔
  code_of (all_calpads_data out) row ∈ school_codes (all_school_data out) ∧
  ∃ job sheet r,
    job ∈ jobs directory ∧ load_sheet job.1 job.2 = Ok sheet ∧
    r ∈ rows sheet ∧
    row = count_row_of (all_calpads_data out) sheet job.2 r.
Proof.
  intros (acc & Hacc & Hpost)%aggregate_inv.
  destruct (post_pass_inv _ _ Hpost) as (_ & _ & _ & HcC & HrC).
  unfold count_row_of, code_of in *. rewrite HrC, HcC, list_elem_of_filter.
  by rewrite (count_rows_acc directory acc row Hacc).
Qed.

Lemma count_rows_characterised_witness :
  ∃ out,
    aggregate Sample.directory = Ok out ∧
    ([CNum 400; CStr Sample.school_level; CNum 101]
       ∈ rows (all_calpads_data out) ↔
     code_of (all_calpads_data out)
       [CNum 400; CStr Sample.school_level; CNum 101]
       ∈ school_codes (all_school_data out) ∧
     ∃ job sheet r,
       job ∈ jobs Sample.directory ∧ load_sheet job.1 job.2 = Ok sheet ∧
       r ∈ rows sheet ∧
       [CNum 400; CStr Sample.school_level; CNum 101]
         = count_row_of (all_calpads_data out) sheet job.2 r).
Proof.
  eexists. split; [vm_compute; reflexivity|].
  apply (count_rows_characterised Sample.directory).
  vm_compute. reflexivity.
Defined.

(** X17 — No count row of a graded school is lost: when the cell
    completes, every row of a loaded sheet whose [Low Grade] cell is
    not empty has its school row in the written school table and its
    count row in the written count table. *)
Theorem graded_rows_keep_their_counts (directory : list workbook)
    (out : tables) (job : workbook * pystr) (sheet : frame)
    (r : list cell) :
  aggregate directory = Ok out →
  job ∈ jobs directory → load_sheet job.1 job.2 = Ok sheet →
  r ∈ rows sheet →
  cell_at (columns sheet) r LOW_GRADE ≠ CNull →
  school_row_of (all_school_data out) sheet r ∈ rows (all_school_data out) ∧
  count_row_of (all_calpads_data out) sheet job.2 r
    ∈ rows (all_calpads_data out).
Proof.
  intros (acc & Hacc & Hpost)%aggregate_inv Hjob Hsheet Hr Hgrade.
  destruct (post_pass_inv _ _ Hpost) as (_ & HcS & HrS & HcC & HrC).
  assert (Hlow : (LOW_GRADE, GRADE_LOW) ∈ school_data_cols)
    by (apply (bool_decide_unpack _); vm_compute; exact I).
  assert (Hcode : (SCHOOL_CODE_HEADER, SCHOOL_CODE) ∈ school_data_cols)
    by (apply (bool_decide_unpack _); vm_compute; exact I).
  assert (Hcode' : (SCHOOL_CODE_HEADER, SCHOOL_CODE) ∈ calpads_data_cols)
    by (apply (bool_decide_unpack _); vm_compute; exact I).
  assert (Hs : school_row_of (all_school_data out) sheet r
               ∈ rows (all_school_data out)).
  { unfold school_row_of. rewrite HrS, HcS. apply list_elem_of_filter. split.
    - fold (school_row_of (all_school_data acc) sheet r).
      by rewrite (school_row_cell directory acc job sheet r _ _ Hacc Hjob
                    Hsheet Hlow).
    - apply (school_rows_acc directory acc _ Hacc). by exists job, sheet, r. }
  split; [exact Hs|].
  unfold count_row_of. rewrite HrC, HcC. apply list_elem_of_filter. split.
  - fold (count_row_of (all_calpads_data acc) sheet job.2 r).
    unfold code_of.
    rewrite (count_row_cell directory acc job sheet r _ _ Hacc Hjob Hsheet
               Hcode').
    unfold school_codes. apply list_elem_of_fmap.
    exists (school_row_of (all_school_data out) sheet r). split; [|exact Hs].
    unfold code_of, school_row_of. rewrite HcS.
    fold (school_row_of (all_school_data acc) sheet r).
    by rewrite (school_row_cell directory acc job sheet r _ _ Hacc Hjob
                  Hsheet Hcode).
  - apply (count_rows_acc directory acc _ Hacc). by exists job, sheet, r.
Qed.

Lemma graded_rows_keep_their_counts_witness :
  ∃ out sheet,
    aggregate Sample.directory = Ok out ∧
    load_sheet Sample.book Sample.school_level = Ok sheet ∧
    school_row_of (all_school_data out) sheet Cases.lincoln_row
      ∈ rows (all_school_data out) ∧
    count_row_of (all_calpads_data out) sheet Sample.school_level
      Cases.lincoln_row ∈ rows (all_calpads_data out).
Proof.
  assert (H : ∃ out, aggregate Sample.directory = Ok out)
    by (eexists; vm_compute; reflexivity).
  destruct H as [out H].
  assert (Hl : ∃ sheet, load_sheet Sample.book Sample.school_level = Ok sheet)
    by (eexists; vm_compute; reflexivity).
  destruct Hl as [sheet Hl].
  exists out, sheet. split; [exact H|]. split; [exact Hl|].
  assert (Hsheet : Ok sheet = load_sheet Sample.book Sample.school_level)
    by (symmetry; exact Hl).
  vm_compute in Hsheet. apply Ok_inj in Hsheet.
  apply (graded_rows_keep_their_counts Sample.directory out Cases.school_job);
    [exact H| |exact Hl| |].
  - apply elem_of_jobs. split; [left|right; left].
  - rewrite Hsheet. left.
  - rewrite Hsheet. vm_compute. discriminate.
Defined.

(** X18 — Every row of the written count table names, under
    [source_sheet], one of the two sheets the notebook reads; the cell
    is never empty. *)
Theorem written_count_rows_tagged (directory : list workbook)
    (out : tables) (row : list cell) :
  aggregate directory = Ok out →
  row ∈ rows (all_calpads_data out) →
  ∃ sheet_name,
    sheet_name ∈ sheet_names ∧
    cell_at (columns (all_calpads_data out)) row SOURCE_SHEET
      = CStr sheet_name.
Proof.
  intros (acc & Hacc & Hpost)%aggregate_inv.
  destruct (post_pass_inv _ _ Hpost) as (_ & _ & _ & HcC & HrC).
  rewrite HrC, HcC. intros [_ Hrow]%list_elem_of_filter.
  apply (count_rows_acc directory acc row Hacc) in Hrow
    as (job & sheet & r & Hjob & Hsheet & _ & ->).
  exists job.2. split; [by apply elem_of_jobs in Hjob as [_ ?]|].
  by apply (count_row_tag directory).
Qed.

Lemma written_count_rows_tagged_witness :
  ∃ out sheet_name,
    aggregate Sample.directory = Ok out ∧
    sheet_name ∈ sheet_names ∧
    cell_at (columns (all_calpads_data out))
      [CNum 400; CStr Sample.school_level; CNum 101] SOURCE_SHEET
      = CStr sheet_name.
Proof.
  assert (H : ∃ out, aggregate Sample.directory = Ok out)
    by (eexists; vm_compute; reflexivity).
  destruct H as [out H].
  destruct (written_count_rows_tagged Sample.directory out
              [CNum 400; CStr Sample.school_level; CNum 101] H)
    as (n & Hn & Hcell).
  - assert (Hout : Ok out = aggregate Sample.directory) by (symmetry; exact H).
    vm_compute in Hout. apply Ok_inj in Hout. rewrite Hout. left.
  - exists out, n. split; [exact H|]. split; [exact Hn|exact Hcell].
Defined.

(** X19 — The cells of the written rows are the cells of the sheets:
    under the canonical name of a header, the school row and the count
    row of a loaded sheet row hold the cell that row has under the
    header (the empty cell when its sheet lacks the header), and the
    count row holds the name of its sheet under [source_sheet]. *)
Theorem written_cells (directory : list workbook) (out : tables)
    (job : workbook * pystr) (sheet : frame) (r : list cell) :
  aggregate directory = Ok out →
  job ∈ jobs directory → load_sheet job.1 job.2 = Ok sheet →
  (∀ k v, (k, v) ∈ school_data_cols →
     cell_at (columns (all_school_data out))
       (school_row_of (all_school_data out) sheet r) v
     = cell_at (columns sheet) r k) ∧
  (∀ k v, (k, v) ∈ calpads_data_cols →
     cell_at (columns (all_calpads_data out))
       (count_row_of (all_calpads_data out) sheet job.2 r) v
     = cell_at (columns sheet) r k) ∧
  cell_at (columns (all_calpads_data out))
    (count_row_of (all_calpads_data out) sheet job.2 r) SOURCE_SHEET
  = CStr job.2.
Proof.
  intros (acc & Hacc & Hpost)%aggregate_inv Hjob Hsheet.
  destruct (post_pass_inv _ _ Hpost) as (_ & HcS & _ & HcC & _).
  unfold school_row_of, count_row_of. rewrite HcS, HcC.
  split; [|split].
  - intros k v Hkv. by apply (school_row_cell directory acc job).
  - intros k v Hkv. by apply (count_row_cell directory).
  - by apply (count_row_tag directory).
Qed.

Lemma written_cells_witness :
  ∃ out sheet,
    aggregate Sample.directory = Ok out ∧
    load_sheet Sample.book Sample.school_level = Ok sheet ∧
    cell_at (columns (all_calpads_data out))
      (count_row_of (all_calpads_data out) sheet Sample.school_level
         Cases.lincoln_row) (py "enrollment")
    = CNum 400.
Proof.
  assert (H : ∃ out, aggregate Sample.directory = Ok out)
    by (eexists; vm_compute; reflexivity).
  destruct H as [out H].
  assert (Hl : ∃ sheet, load_sheet Sample.book Sample.school_level = Ok sheet)
    by (eexists; vm_compute; reflexivity).
  destruct Hl as [sheet Hl].
  exists out, sheet. split; [exact H|]. split; [exact Hl|].
  destruct (written_cells Sample.directory out Cases.school_job sheet
              Cases.lincoln_row H) as (_ & Hcount & _).
  - apply elem_of_jobs. split; [left|right; left].
  - exact Hl.
  - pose proof (Hcount (py "Total Enrollment") (py "enrollment")) as Hc.
    unfold Cases.school_job in Hc. cbn [snd] in Hc. rewrite Hc.
    + assert (Hsheet : Ok sheet = load_sheet Sample.book Sample.school_level)
        by (symmetry; exact Hl).
      vm_compute in Hsheet. apply Ok_inj in Hsheet. rewrite Hsheet.
      vm_compute. reflexivity.
    + apply (bool_decide_unpack _). vm_compute. exact I.
Defined.

End Extras.
